(** * Branches, Branch and Commit of python-gerrit-api: a shallow embedding

    The development follows [gerrit/projects/branches.py] and
    [gerrit/projects/commit.py].  Python values are restricted to the JSON
    fragment the REST layer exchanges (no floats); a Python [str] is the
    sequence of bytes of its UTF-8 encoding; exceptions are values of [exn];
    the session object [gerrit] is an interface whose requests are logged in
    the state that every method threads. *)

From Stdlib Require Import ZArith Ascii String List Lia.
From stdpp Require Import base list strings.
From Equations Require Import Equations.

Local Open Scope string_scope.
Local Open Scope list_scope.

(** ** Python values *)

#[warnings="-register-all"]
Inductive json : Type :=
| JNull
| JBool (b : bool)
| JNum (n : Z)
| JStr (s : string)
| JArr (items : list json)
| JObj (fields : list (string * json)).

(** A [dict] with [str] keys, in insertion order. *)
Definition dict := list (string * json).

(** [d.get(k)]: the value stored under [k], if any. *)
Fixpoint dict_get {V : Type} (k : string) (d : list (string * V)) : option V :=
  match d with
  | [] => None
  | (k', v) :: d' => if String.eqb k' k then Some v else dict_get k d'
  end.

(** Python's [==] on these values: [bool] is a subclass of [int], lists
    compare pointwise, dicts compare as finite maps (order is ignored). *)
Fixpoint py_eq (a b : json) {struct a} : bool :=
  match a, b with
  | JNull, JNull => true
  | JBool x, JBool y => Bool.eqb x y
  | JBool x, JNum n => Z.eqb (if x then 1 else 0) n
  | JNum n, JBool y => Z.eqb n (if y then 1 else 0)
  | JNum n, JNum m => Z.eqb n m
  | JStr s, JStr t => String.eqb s t
  | JArr xs, JArr ys =>
      (fix pointwise (xs ys : list json) {struct xs} : bool :=
         match xs, ys with
         | [], [] => true
         | x :: xs', y :: ys' => py_eq x y && pointwise xs' ys'
         | _, _ => false
         end) xs ys
  | JObj d1, JObj d2 =>
      Nat.eqb (length d1) (length d2) &&
      (fix every (d : list (string * json)) {struct d} : bool :=
         match d with
         | [] => true
         | (k, v) :: d' =>
             match dict_get k d2 with
             | Some v' => py_eq v v'
             | None => false
             end && every d'
         end) d1
  | _, _ => false
  end.

Definition is_mapping (v : json) : bool :=
  match v with JObj _ => true | _ => false end.

(** ** Exceptions and results *)

Inductive exn : Type :=
| KeyError (arg : string)
| TypeError
| ValueError
| AttributeError (attr : string)
| UnknownBranch (ref : string)
| InvalidArgument
| RemoteFailure (detail : string).

Inductive res (A : Type) : Type :=
| Ok (a : A)
| Raise (e : exn).
Arguments Ok {A} a.
Arguments Raise {A} e.

Definition res_bind {A B : Type} (r : res A) (k : A -> res B) : res B :=
  match r with
  | Ok a => k a
  | Raise e => Raise e
  end.

(** [v[key]] for a [str] key: only a dict accepts it. *)
Definition getitem (v : json) (key : string) : res json :=
  match v with
  | JObj d =>
      match dict_get key d with
      | Some x => Ok x
      | None => Raise (KeyError key)
      end
  | _ => Raise TypeError
  end.

(** [iter(v)]: the elements a [for] loop visits. *)
Definition py_iter (v : json) : res (list json) :=
  match v with
  | JArr items => Ok items
  | JObj d => Ok (map (fun kv => JStr (fst kv)) d)
  | JStr s => Ok (map (fun c => JStr (String c EmptyString)) (list_ascii_of_string s))
  | _ => Raise TypeError
  end.

(** [l.remove(x)] where [x] is the object stored at index [same] of [l]:
    the first element that is [x] itself or compares equal to it goes;
    [None] stands for [ValueError]. *)
Fixpoint list_remove (same : nat) (x : json) (l : list json) {struct l}
  : option (list json) :=
  match l with
  | [] => None
  | y :: l' =>
      match same with
      | O => Some l'
      | S k => if py_eq y x then Some l' else option_map (cons y) (list_remove k x l')
      end
  end.

(** [x in l]. *)
Definition py_in (x : json) (l : list json) : bool :=
  existsb (fun y => py_eq y x) l.

(** ** Strings *)

Definition startswith (s p : string) : bool := String.prefix p s.

(** [s.replace(old, new)]: every non-overlapping occurrence of [old], found
    from the left, becomes [new].  [skip] counts the characters of a match
    that remain to be passed over. *)
Fixpoint replace_from (old new : string) (skip : nat) (s : string) : string :=
  match s with
  | EmptyString => EmptyString
  | String c s' =>
      match skip with
      | S k => replace_from old new k s'
      | O =>
          if String.prefix old s
          then new +:+ replace_from old new (String.length old - 1) s'
          else String c (replace_from old new 0 s')
      end
  end.

(** With an empty [old], Python puts [new] before every character and at
    the end. *)
Fixpoint intersperse (new s : string) : string :=
  match s with
  | EmptyString => new
  | String c s' => new +:+ String c (intersperse new s')
  end.

Definition replace (s old new : string) : string :=
  match old with
  | EmptyString => intersperse new s
  | _ => replace_from old new 0 s
  end.

(** ** [urllib.parse.quote(s, safe='')] *)

Definition is_upper (c : ascii) : bool :=
  (65 <=? nat_of_ascii c)%nat && (nat_of_ascii c <=? 90)%nat.
Definition is_lower (c : ascii) : bool :=
  (97 <=? nat_of_ascii c)%nat && (nat_of_ascii c <=? 122)%nat.
Definition is_digit (c : ascii) : bool :=
  (48 <=? nat_of_ascii c)%nat && (nat_of_ascii c <=? 57)%nat.

(** The bytes [quote] never escapes: letters, digits and [_.-~]. *)
Definition always_safe (c : ascii) : bool :=
  is_upper c || is_lower c || is_digit c ||
  Ascii.eqb c "_" || Ascii.eqb c "." || Ascii.eqb c "-" || Ascii.eqb c "~".

Definition hex_digit (n : nat) : ascii :=
  if (n <? 10)%nat then ascii_of_nat (48 + n) else ascii_of_nat (55 + n).

(** ['%{:02X}'.format(byte)] *)
Definition percent (c : ascii) : string :=
  String "%" (String (hex_digit (nat_of_ascii c / 16))
             (String (hex_digit (nat_of_ascii c mod 16)) EmptyString)).

Definition quote_byte (safe : string) (c : ascii) : string :=
  if always_safe c || existsb (Ascii.eqb c) (list_ascii_of_string safe)
  then String c EmptyString
  else percent c.

Fixpoint quote (s safe : string) : string :=
  match s with
  | EmptyString => EmptyString
  | String c s' => quote_byte safe c +:+ quote s' safe
  end.


(** ** The session and the state the methods thread *)

Inductive method : Type := GET | PUT | POST | DELETE.

(** One call [gerrit.make_call(method, endpoint, **payload)]. *)
Record request : Type := Request {
  req_method : method;
  req_endpoint : string;
  req_payload : dict }.

(** The collaborators of this layer.  [reply sent rq] is what the transport
    gives for [rq] after the requests [sent] (a response, or the exception it
    propagates); [decode_response] and [raise_for_status] are the two ways
    the code reads a response. *)
Class Gerrit : Type := {
  response : Type;
  reply : list request -> request -> res response;
  decode_response : response -> res json;
  raise_for_status : response -> res unit }.

(** The fields of a [Branches] object. *)
Record collection : Type := {
  project : string;
  _data : list json }.

Record state : Type := {
  requests : list request;
  branches : collection }.

Definition M (A : Type) : Type := state -> res A * state.

Definition ret {A : Type} (a : A) : M A := fun st => (Ok a, st).

Definition raise {A : Type} (e : exn) : M A := fun st => (Raise e, st).

Definition lift {A : Type} (r : res A) : M A := fun st => (r, st).

Definition bind {A B : Type} (m : M A) (k : A -> M B) : M B :=
  fun st =>
    match m st with
    | (Ok a, st') => k a st'
    | (Raise e, st') => (Raise e, st')
    end.

Notation "'let*' x ':=' c1 'in' c2" := (bind c1 (fun x => c2))
  (at level 10, x name, c1 at level 100, c2 at level 200).

Definition get_self : M collection := fun st => (Ok (branches st), st).

(** [self.project = p] *)
Definition set_project (p : string) : M unit :=
  fun st =>
    (Ok tt, {| requests := requests st;
               branches := {| project := p; _data := _data (branches st) |} |}).

(** [self._data = d] *)
Definition set_data (d : list json) : M unit :=
  fun st =>
    (Ok tt, {| requests := requests st;
               branches := {| project := project (branches st); _data := d |} |}).

Definition make_call `{Gerrit} (m : method) (endpoint : string) (payload : dict)
  : M response :=
  fun st =>
    let rq := Request m endpoint payload in
    (reply (requests st) rq,
     {| requests := requests st ++ [rq]; branches := branches st |}).

(** [**v] in a call: only a mapping expands into keyword arguments. *)
Definition kwargs (v : json) : res dict :=
  match v with
  | JObj d => Ok d
  | _ => Raise TypeError
  end.

(** Modelled from the spec: the [@check] decorator of [gerrit.utils.common],
    whose source is not part of this development.  The input that the
    signature declares a mapping must be one; otherwise [InvalidArgument] is
    signalled and the decorated body does not run. *)
Definition check {A : Type} (arg : json) (body : M A) : M A :=
  if is_mapping arg then body else raise InvalidArgument.

(** Modelled from the spec: attribute access on a model built by
    [BaseModel.parse], whose source is not part of this development.  The
    fields of the raw record are the attributes; none is validated. *)
Definition attribute (raw : json) (attr : string) : res json :=
  match raw with
  | JObj d =>
      match dict_get attr d with
      | Some v => Ok v
      | None => Raise (AttributeError attr)
      end
  | _ => Raise (AttributeError attr)
  end.

(** ** class Branch *)

Module Branch.

Record t : Type := {
  raw : json;
  project : string }.

Definition branch_prefix : string := "refs/heads/".

(** Modelled from the spec: [BaseModel.parse(raw, project=..., gerrit=...)],
    whose source is not part of this development: a model over the raw
    record with the context attributes added.  The [gerrit] attribute is
    the ambient session. *)
Definition parse (raw : json) (project : string) : t :=
  {| raw := raw; project := project |}.

Definition ref (self : t) : res json := attribute (raw self) "ref".

Definition name (self : t) : res string :=
  res_bind (ref self) (fun r =>
    match r with
    | JStr s => Ok (replace s branch_prefix "")
    | _ => Raise (AttributeError "replace")
    end).

Section Methods.
Context `{Gerrit}.

Definition get_file_content (self : t) (file : string) : M json :=
  let* n := lift (name self) in
  let endpoint :=
    "/projects/" +:+ project self +:+ "/branches/" +:+ n +:+
    "/files/" +:+ quote file "" +:+ "/content" in
  let* response := make_call GET endpoint [] in
  lift (decode_response response).

Definition get_mergeable_information (self : t) (MergeInput : json) : M json :=
  check MergeInput (
    let* n := lift (name self) in
    let endpoint :=
      "/projects/" +:+ project self +:+ "/branches/" +:+ n +:+ "/mergeable" in
    let* kw := lift (kwargs MergeInput) in
    let* response := make_call GET endpoint kw in
    lift (decode_response response)).

Definition get_reflog (self : t) : M json :=
  let* n := lift (name self) in
  let endpoint :=
    "/projects/" +:+ project self +:+ "/branches/" +:+ n +:+ "/reflog" in
  let* response := make_call GET endpoint [] in
  lift (decode_response response).

Definition delete (self : t) : M unit :=
  let* n := lift (name self) in
  let endpoint := "/projects/" +:+ project self +:+ "/branches/" +:+ n in
  let* response := make_call DELETE endpoint [] in
  lift (raise_for_status response).

End Methods.

End Branch.

(** ** class Commit *)

Module Commit.

Record t : Type := {
  commit : string;
  project : string }.

Section Methods.
Context `{Gerrit}.

Definition get_include_in (self : t) : M json :=
  let endpoint :=
    "/projects/" +:+ project self +:+ "/commits/" +:+ commit self +:+ "/in" in
  let* response := make_call GET endpoint [] in
  lift (decode_response response).

Definition get_file_content (self : t) (file : string) : M json :=
  let endpoint :=
    "/projects/" +:+ project self +:+ "/commits/" +:+ commit self +:+
    "/files/" +:+ quote file "" +:+ "/content" in
  let* response := make_call GET endpoint [] in
  lift (decode_response response).

Definition cherry_pick (self : t) (CherryPickInput : json) : M json :=
  check CherryPickInput (
    let endpoint :=
      "/projects/" +:+ project self +:+ "/commits/" +:+ commit self +:+
      "/cherrypick" in
    let* kw := lift (kwargs CherryPickInput) in
    let* response := make_call POST endpoint kw in
    lift (decode_response response)).

Definition list_change_files (self : t) : M json :=
  let endpoint :=
    "/projects/" +:+ project self +:+ "/commits/" +:+ commit self +:+ "/files/" in
  let* response := make_call GET endpoint [] in
  lift (decode_response response).

End Methods.

End Commit.

(** ** class Branches *)

Definition inspect {A : Type} (a : A) : {b : A | a = b} := exist _ a eq_refl.

(** The loop of [poll]:
<<
    for item in result:
        if item['ref'] == 'refs/meta/config':
            result.remove(item)
>>
    The list iterator holds an index [i] into the list being mutated: it
    stops when [i] is past the end, otherwise takes [result[i]] and moves to
    [i + 1], whatever the body removed. *)
Equations? poll_loop (i : nat) (result : list json) : res (list json)
  by wf (length result - i) lt :=
  poll_loop i result with inspect (result !! i) := {
    | exist _ None _ => Ok result
    | exist _ (Some item) Hi with getitem item "ref" := {
        | Raise e => Raise e
        | Ok r with py_eq r (JStr "refs/meta/config") := {
            | false => poll_loop (S i) result
            | true with inspect (list_remove i item result) := {
                | exist _ None _ => Raise ValueError
                | exist _ (Some result') Hr => poll_loop (S i) result' } } } }.
Proof.
  all: apply lookup_lt_Some in Hi.
  - enough (length result = S (length result')) by lia.
    clear - Hr. revert i result' Hr.
    induction result as [|y l IH]; intros i l' Hr; simpl in Hr; [discriminate|].
    destruct i as [|k]; [injection Hr as <-; reflexivity|].
    destruct (py_eq y item); [injection Hr as <-; reflexivity|].
    destruct (list_remove k item l) as [l0|] eqn:E; simpl in Hr; [|discriminate].
    injection Hr as <-. simpl. f_equal. eauto.
  - lia.
Defined.

(** [list(self.iterkeys())]: the generator yields [row['ref']] row by row,
    so the first row without it ends the walk with its exception. *)
Fixpoint iterkeys (rows : list json) : res (list json) :=
  match rows with
  | [] => Ok []
  | row :: rows' =>
      res_bind (getitem row "ref") (fun r =>
      res_bind (iterkeys rows') (fun rs => Ok (r :: rs)))
  end.

(** [[row for row in rows if row['ref'] == ref]] *)
Fixpoint rows_with_ref (ref : string) (rows : list json) : res (list json) :=
  match rows with
  | [] => Ok []
  | row :: rows' =>
      res_bind (getitem row "ref") (fun r =>
      res_bind (rows_with_ref ref rows') (fun rest =>
      Ok (if py_eq r (JStr ref) then row :: rest else rest)))
  end.

Module Branches.

Definition branch_prefix : string := "refs/heads/".

Section Methods.
Context `{Gerrit}.

(** The returned object is [result] itself; the model returns the sequence
    of its elements, which is all the other methods read of [_data]. *)
Definition poll : M (list json) :=
  let* self := get_self in
  let endpoint := "/projects/" +:+ project self +:+ "/branches/" in
  let* response := make_call GET endpoint [] in
  let* result := lift (decode_response response) in
  let* items := lift (py_iter result) in
  lift (poll_loop 0 items).

Definition __init__ (project : string) : M unit :=
  let* _ := set_project project in
  let* d := poll in
  set_data d.

Definition keys : M (list json) :=
  let* self := get_self in
  lift (iterkeys (_data self)).

Definition __len__ : M nat :=
  let* ks := keys in
  ret (length ks).

Definition __contains__ (ref : json) : M bool :=
  let* ks := keys in
  ret (py_in ref ks).

Definition __getitem__ (ref : string) : M Branch.t :=
  if negb (startswith ref branch_prefix)
  then raise (KeyError ("branch ref should start with " +:+ branch_prefix))
  else
    let* self := get_self in
    let* result := lift (rows_with_ref ref (_data self)) in
    match result with
    | ref_date :: _ => ret (Branch.parse ref_date (project self))
    | [] => raise (UnknownBranch ref)
    end.

Definition create (name : string) (BranchInput : json) : M Branch.t :=
  check BranchInput (
    let ref := branch_prefix +:+ name in
    let* ks := keys in
    if py_in (JStr ref) ks
    then __getitem__ ref
    else
      let* self := get_self in
      let endpoint := "/projects/" +:+ project self +:+ "/branches/" +:+ name in
      let* kw := lift (kwargs BranchInput) in
      let* response := make_call PUT endpoint kw in
      let* result := lift (decode_response response) in
      ret (Branch.parse result (project self))).

Definition __setitem__ (key : string) (value : json) : M unit :=
  if negb (startswith key branch_prefix)
  then raise (KeyError ("branch ref should start with " +:+ branch_prefix))
  else
    let* _ := create (replace key branch_prefix "") value in
    ret tt.

Definition __delitem__ (key : string) : M unit :=
  let* b := __getitem__ key in
  Branch.delete b.

(** The generator of [__iter__], drained. *)
Definition __iter__ : M (list Branch.t) :=
  let* self := get_self in
  ret (map (fun row => Branch.parse row (project self)) (_data self)).

End Methods.

(** [Branches(project, gerrit)] on a session that has sent [sent]. *)
Definition new `{Gerrit} (p : string) (sent : list request) : res unit * state :=
  __init__ p {| requests := sent;
                branches := {| project := ""; _data := [] |} |}.

End Branches.

(** ** What the spec's words say, for comparison with the code *)

(** "[ref] with the leading prefix [refs/heads/] stripped, and [ref]
    unchanged when it does not start with that prefix". *)
Fixpoint drop_chars (n : nat) (s : string) : string :=
  match n, s with
  | S k, String _ s' => drop_chars k s'
  | _, _ => s
  end.

Definition strip_leading_prefix (p s : string) : string :=
  if startswith s p then drop_chars (String.length p) s else s.

(** "every character of the path escaped". *)
Fixpoint escape_every_character (s : string) : string :=
  match s with
  | EmptyString => EmptyString
  | String c s' => percent c +:+ escape_every_character s'
  end.

(** The encoding as the code applies it: a byte [quote] never escapes
    stays, every other byte becomes [%XX]. *)
Fixpoint escape_reserved (s : string) : string :=
  match s with
  | EmptyString => EmptyString
  | String c s' =>
      (if always_safe c then String c EmptyString else percent c)
      +:+ escape_reserved s'
  end.

(** The bytes an encoded path segment is made of. *)
Definition segment_byte (c : ascii) : bool := always_safe c || Ascii.eqb c "%".

(** [old] occurs somewhere in [s]. *)
Fixpoint occurs (old s : string) : bool :=
  String.prefix old s ||
  match s with
  | EmptyString => false
  | String _ s' => occurs old s'
  end.

(** Percent-decoding, the inverse the server applies to a path segment. *)
Definition hex_value (c : ascii) : option nat :=
  let n := nat_of_ascii c in
  if is_digit c then Some (n - 48)
  else if (65 <=? n)%nat && (n <=? 70)%nat then Some (n - 55)
  else if (97 <=? n)%nat && (n <=? 102)%nat then Some (n - 87)
  else None.

Fixpoint unquote (s : string) : string :=
  match s with
  | EmptyString => EmptyString
  | String c s' =>
      match Ascii.eqb c "%", s' with
      | true, String h (String l rest) =>
          match hex_value h, hex_value l with
          | Some a, Some b => String (ascii_of_nat (16 * a + b)) (unquote rest)
          | _, _ => String c (unquote s')
          end
      | _, _ => String c (unquote s')
      end
  end.

(** ** Rows and snapshots *)

Definition meta_config : string := "refs/meta/config".

(** A record that has a [ref] field. *)
Definition has_ref (row : json) : bool :=
  match getitem row "ref" with
  | Ok _ => true
  | Raise _ => false
  end.

(** A record whose [ref] is [s]. *)
Definition ref_is (s : string) (row : json) : bool :=
  match getitem row "ref" with
  | Ok r => py_eq r (JStr s)
  | Raise _ => false
  end.

(** A row the loop has nothing to do with. *)
Definition plain (row : json) : bool :=
  has_ref row && negb (ref_is meta_config row).

(** A record other than the [refs/meta/config] one. *)
Definition not_meta (row : json) : bool := negb (ref_is meta_config row).

(** ** A scripted server for the examples *)

Record http_response : Type := {
  status_code : Z;
  body : json }.

Definition successful (r : http_response) : bool :=
  (200 <=? status_code r)%Z && (status_code r <? 300)%Z.

Definition scripted (script : list request -> request -> http_response) : Gerrit :=
  {| response := http_response;
     reply := fun sent rq => Ok (script sent rq);
     decode_response := fun r =>
       if successful r then Ok (body r) else Raise (RemoteFailure "status");
     raise_for_status := fun r =>
       if successful r then Ok tt else Raise (RemoteFailure "status") |}.

Definition branch_info (ref revision : string) : json :=
  JObj [("ref", JStr ref); ("revision", JStr revision)].

Definition is_put (rq : request) : bool :=
  match req_method rq with PUT => true | _ => false end.

(** A server that lists [listing] and answers a creation with a record for
    [ref] whose revision tells whether a creation was asked before. *)
Definition server (listing : list json) (ref : string) : Gerrit :=
  scripted (fun sent rq =>
    match req_method rq with
    | GET => {| status_code := 200; body := JArr listing |}
    | PUT => {| status_code := 201;
                body := branch_info ref
                          (if existsb is_put sent then "later" else "first") |}
    | POST => {| status_code := 200; body := JObj [] |}
    | DELETE => {| status_code := 204; body := JNull |}
    end).

Definition snapshot (p : string) (rows : list json) : state :=
  {| requests := []; branches := {| project := p; _data := rows |} |}.

(** ** Frames *)

(** A method that leaves the [Branches] object as it found it. *)
Definition keeps_snapshot {A : Type} (m : M A) : Prop :=
  forall st, branches (snd (m st)) = branches st.

(** A method that neither sends a request nor touches the object. *)
Definition silent {A : Type} (m : M A) : Prop :=
  forall st, snd (m st) = st.

(** [keys()], [len()], [in] and iteration give in [st'] what they give in
    [st]. *)
Definition same_reads (st st' : state) : Prop :=
  fst (Branches.keys st') = fst (Branches.keys st) /\
  fst (Branches.__len__ st') = fst (Branches.__len__ st) /\
  (forall r, fst (Branches.__contains__ r st') = fst (Branches.__contains__ r st)) /\
  fst (Branches.__iter__ st') = fst (Branches.__iter__ st).

(** [m] sends at most one request, of method [meth], after the requests
    already sent, and leaves the [Branches] object as it found it. *)
Definition emits (meth : method) {A : Type} (m : M A) : Prop :=
  forall st, exists rqs,
    snd (m st) = {| requests := requests st ++ rqs; branches := branches st |} /\
    (rqs = [] \/ exists endpoint payload, rqs = [Request meth endpoint payload]).

(** * Properties *)

(** ** Strings *)

Lemma prefix_append (p s : string) : String.prefix p (p +:+ s) = true.
Proof.
  induction p as [|c p IH]; simpl.
  - now destruct s.
  - destruct (ascii_dec c c) as [_|Hne]; [exact IH | now destruct Hne].
Qed.

Lemma drop_chars_append (p s : string) : drop_chars (String.length p) (p +:+ s) = s.
Proof.
  induction p as [|c p IH]; simpl; [now destruct s | exact IH].
Qed.

Lemma strip_leading_prefix_append (p s : string) :
  strip_leading_prefix p (p +:+ s) = s.
Proof.
  unfold strip_leading_prefix, startswith.
  now rewrite prefix_append, drop_chars_append.
Qed.

(** Passing over the rest of a match. *)
Lemma replace_from_skip (old new p s : string) :
  replace_from old new (String.length p) (p +:+ s) = replace_from old new 0 s.
Proof.
  induction p as [|c p IH]; simpl; [reflexivity | exact IH].
Qed.

Lemma replace_from_absent (old new s : string) :
  occurs old s = false -> replace_from old new 0 s = s.
Proof.
  induction s as [|c s IH]; intros Hocc; [reflexivity|].
  cbn [occurs] in Hocc. apply orb_false_iff in Hocc as [Hp Hs].
  cbn [replace_from]. rewrite Hp. f_equal. auto.
Qed.

(** Where [old] occurs at the front only, or nowhere, [replace] and the
    stripping of a leading prefix agree. *)
Lemma replace_leading_only (c : ascii) (p s : string) :
  occurs (String c p) s = false ->
  replace (String c p +:+ s) (String c p) "" = s.
Proof.
  intros Hocc. unfold replace.
  change (String c p +:+ s) with (String c (p +:+ s)).
  cbn [replace_from].
  change (String c (p +:+ s)) with (String c p +:+ s).
  rewrite prefix_append.
  replace (String.length (String c p) - 1) with (String.length p) by (simpl; lia).
  rewrite replace_from_skip. simpl. now apply replace_from_absent.
Qed.

Lemma replace_absent (c : ascii) (p s : string) :
  occurs (String c p) s = false -> replace s (String c p) "" = s.
Proof. intros Hocc. unfold replace. now apply replace_from_absent. Qed.

Example name_main :
  Branch.name (Branch.parse (branch_info "refs/heads/main" "abc123") "P") = Ok "main".
Proof. reflexivity. Qed.

Example name_feature_x :
  Branch.name (Branch.parse (branch_info "refs/heads/feature/x" "abc123") "P")
  = Ok "feature/x".
Proof. reflexivity. Qed.

Lemma prefix_split (p s : string) :
  String.prefix p s = true -> s = p +:+ drop_chars (String.length p) s.
Proof.
  revert s. induction p as [|c p IH]; intros s Hp; simpl.
  - now destruct s.
  - destruct s as [|d s]; simpl in Hp; [discriminate|].
    destruct (ascii_dec c d) as [->|_]; [|discriminate].
    simpl. change (String d p +:+ ?t) with (String d (p +:+ t)).
    f_equal. auto.
Qed.

Lemma occurs_append_false (old q s : string) :
  occurs old (q +:+ s) = false -> occurs old s = false.
Proof.
  induction q as [|c q IH]; simpl; [auto|].
  intros Hocc. apply orb_false_iff in Hocc as [_ Hq]. auto.
Qed.

(** Where the prefix occurs at the front of [s] only, or nowhere, [replace]
    strips it as the leading prefix. *)
Lemma replace_is_strip (s : string) :
  occurs Branch.branch_prefix (drop_chars 1 s) = false ->
  replace s Branch.branch_prefix "" = strip_leading_prefix Branch.branch_prefix s.
Proof.
  intros Hocc. destruct (String.prefix Branch.branch_prefix s) eqn:Hp.
  - rewrite (prefix_split _ _ Hp) in Hocc |- *.
    rewrite strip_leading_prefix_append.
    apply replace_leading_only.
    change (drop_chars 1 (Branch.branch_prefix +:+ ?t)) with ("efs/heads/" +:+ t) in Hocc.
    exact (occurs_append_false _ _ _ Hocc).
  - unfold strip_leading_prefix, startswith. rewrite Hp.
    apply replace_absent.
    destruct s as [|c s]; [reflexivity|].
    cbn [occurs]. change (String.prefix "refs/heads/" (String c s)) with
      (String.prefix Branch.branch_prefix (String c s)).
    rewrite Hp. exact Hocc.
Qed.

Lemma name_of_plain_ref (raw : json) (p s : string) :
  Branch.ref (Branch.parse raw p) = Ok (JStr s) ->
  occurs Branch.branch_prefix (drop_chars 1 s) = false ->
  Branch.name (Branch.parse raw p)
  = Ok (strip_leading_prefix Branch.branch_prefix s).
Proof.
  intros Href Hocc. unfold Branch.name. rewrite Href. cbn [res_bind].
  now rewrite replace_is_strip.
Qed.

(** C4, at a branch whose name itself holds [refs/heads/]: [name] drops
    every occurrence of the prefix, where stripping the leading prefix keeps
    the inner ones; and a ref that does not start with the prefix but holds
    it further on is not returned unchanged. *)
Theorem name_drops_inner_prefix :
  Branch.name (Branch.parse (branch_info "refs/heads/a/refs/heads/b" "abc123") "P")
  = Ok "a/b" /\
  strip_leading_prefix Branch.branch_prefix "refs/heads/a/refs/heads/b"
  = "a/refs/heads/b" /\
  Branch.name (Branch.parse (branch_info "refs/tags/refs/heads/x" "abc123") "P")
  = Ok "refs/tags/x" /\
  startswith "refs/tags/refs/heads/x" Branch.branch_prefix = false.
Proof. repeat split. Qed.

(** ** The monad, the frame of a method and what it sends *)

Lemma keeps_ret {A : Type} (a : A) : keeps_snapshot (ret a).
Proof. now intros st. Qed.

Lemma keeps_raise {A : Type} (e : exn) : keeps_snapshot (@raise A e).
Proof. now intros st. Qed.

Lemma keeps_lift {A : Type} (r : res A) : keeps_snapshot (lift r).
Proof. now intros st. Qed.

Lemma keeps_get_self : keeps_snapshot get_self.
Proof. now intros st. Qed.

Lemma keeps_make_call `{Gerrit} (m : method) (e : string) (p : dict) :
  keeps_snapshot (make_call m e p).
Proof. now intros st. Qed.

Lemma keeps_bind {A B : Type} (m : M A) (k : A -> M B) :
  keeps_snapshot m -> (forall a, keeps_snapshot (k a)) -> keeps_snapshot (bind m k).
Proof.
  intros Hm Hk st. unfold bind. specialize (Hm st).
  destruct (m st) as [[a|e] st1]; simpl in *; [|exact Hm].
  now rewrite Hk.
Qed.

Lemma keeps_check {A : Type} (v : json) (m : M A) :
  keeps_snapshot m -> keeps_snapshot (check v m).
Proof. intros Hm. unfold check. destruct (is_mapping v); [exact Hm | now intros st]. Qed.

Lemma keeps_if {A : Type} (b : bool) (m1 m2 : M A) :
  keeps_snapshot m1 -> keeps_snapshot m2 -> keeps_snapshot (if b then m1 else m2).
Proof. now destruct b. Qed.

Create HintDb frame discriminated.
#[export] Hint Resolve keeps_ret keeps_raise keeps_lift keeps_get_self
  keeps_make_call keeps_check keeps_if : frame.
#[export] Hint Extern 2 (keeps_snapshot (bind _ _)) =>
  apply keeps_bind; [|intro] : frame.
#[export] Hint Extern 3 (keeps_snapshot (match ?x with _ => _ end)) =>
  destruct x : frame.

Ltac frame := auto 20 with frame.

Lemma silent_ret {A : Type} (a : A) : silent (ret a).
Proof. now intros st. Qed.

Lemma silent_raise {A : Type} (e : exn) : silent (@raise A e).
Proof. now intros st. Qed.

Lemma silent_lift {A : Type} (r : res A) : silent (lift r).
Proof. now intros st. Qed.

Lemma silent_get_self : silent get_self.
Proof. now intros st. Qed.

Lemma silent_bind {A B : Type} (m : M A) (k : A -> M B) :
  silent m -> (forall a, silent (k a)) -> silent (bind m k).
Proof.
  intros Hm Hk st. unfold bind. specialize (Hm st).
  destruct (m st) as [[a|e] st1]; simpl in *; subst; [apply Hk | reflexivity].
Qed.

Lemma silent_keeps {A : Type} (m : M A) : silent m -> keeps_snapshot m.
Proof. intros Hm st. now rewrite Hm. Qed.

(** *** The readers of the snapshot *)

Section Readers.
Context {G : Gerrit}.

Lemma keys_run (st : state) :
  Branches.keys st = (iterkeys (_data (branches st)), st).
Proof. unfold Branches.keys, bind, get_self, lift. reflexivity. Qed.

Lemma len_run (st : state) :
  Branches.__len__ st
  = (res_bind (iterkeys (_data (branches st))) (fun ks => Ok (length ks)), st).
Proof.
  unfold Branches.__len__, bind. rewrite keys_run.
  now destruct (iterkeys _).
Qed.

Lemma contains_run (r : json) (st : state) :
  Branches.__contains__ r st
  = (res_bind (iterkeys (_data (branches st))) (fun ks => Ok (py_in r ks)), st).
Proof.
  unfold Branches.__contains__, bind. rewrite keys_run.
  now destruct (iterkeys _).
Qed.

Lemma iter_run (st : state) :
  Branches.__iter__ st
  = (Ok (map (fun row => Branch.parse row (project (branches st)))
             (_data (branches st))), st).
Proof. reflexivity. Qed.

Lemma getitem_run (ref : string) (st : state) :
  Branches.__getitem__ ref st
  = (if negb (startswith ref Branches.branch_prefix)
     then Raise (KeyError "branch ref should start with refs/heads/")
     else res_bind (rows_with_ref ref (_data (branches st))) (fun result =>
            match result with
            | row :: _ => Ok (Branch.parse row (project (branches st)))
            | [] => Raise (UnknownBranch ref)
            end), st).
Proof.
  unfold Branches.__getitem__.
  destruct (negb (startswith ref Branches.branch_prefix)); [reflexivity|].
  unfold bind, get_self, lift.
  destruct (rows_with_ref ref (_data (branches st))) as [[|row rest]|e]; reflexivity.
Qed.

Lemma silent_getitem (ref : string) : silent (Branches.__getitem__ ref).
Proof. intros st. now rewrite getitem_run. Qed.

Lemma silent_keys : silent Branches.keys.
Proof. intros st. now rewrite keys_run. Qed.

(** *** The writers keep the snapshot *)

Lemma keeps_branch_delete (b : Branch.t) : keeps_snapshot (Branch.delete b).
Proof. unfold Branch.delete. frame. Qed.

Lemma keeps_getitem (ref : string) : keeps_snapshot (Branches.__getitem__ ref).
Proof. apply silent_keeps, silent_getitem. Qed.

Lemma keeps_keys : keeps_snapshot Branches.keys.
Proof. apply silent_keeps, silent_keys. Qed.

Lemma keeps_create (name : string) (input : json) :
  keeps_snapshot (Branches.create name input).
Proof.
  unfold Branches.create. pose proof keeps_getitem. pose proof keeps_keys. frame.
Qed.

Lemma keeps_delitem (key : string) : keeps_snapshot (Branches.__delitem__ key).
Proof.
  unfold Branches.__delitem__. pose proof keeps_getitem.
  pose proof keeps_branch_delete. frame.
Qed.

Lemma keeps_setitem (key : string) (value : json) :
  keeps_snapshot (Branches.__setitem__ key value).
Proof. unfold Branches.__setitem__. pose proof keeps_create. frame. Qed.

(** [poll] itself returns a fresh list and assigns nothing. *)
Lemma keeps_poll : keeps_snapshot Branches.poll.
Proof. unfold Branches.poll. frame. Qed.

End Readers.

(** ** The stale cache *)

Lemma same_reads_of_snapshot (st st' : state) :
  branches st' = branches st -> same_reads st st'.
Proof.
  intros Hb. unfold same_reads.
  rewrite !keys_run, !len_run, !iter_run. simpl. rewrite Hb.
  repeat split. intros r. now rewrite !contains_run, Hb.
Qed.

(** C3: whatever [create], [del branches[key]] or [Branch.delete()] do
    remotely, and whether they succeed or raise, the object's [_data] is
    afterwards what it was, and so are [keys()], [len()], [in] and
    iteration. *)
Theorem writes_keep_the_snapshot {G : Gerrit} (st : state) :
  (forall name input,
     let st' := snd (Branches.create name input st) in
     _data (branches st') = _data (branches st) /\ same_reads st st') /\
  (forall key,
     let st' := snd (Branches.__delitem__ key st) in
     _data (branches st') = _data (branches st) /\ same_reads st st') /\
  (forall b,
     let st' := snd (Branch.delete b st) in
     _data (branches st') = _data (branches st) /\ same_reads st st').
Proof.
  repeat apply conj; intros; cbv zeta;
    (split; [apply f_equal | apply same_reads_of_snapshot]);
    first [apply keeps_create | apply keeps_delitem | apply keeps_branch_delete].
Qed.

(** ** Validation before any request *)

(** C6: an input that is not a mapping makes each of the three checked
    operations signal [InvalidArgument] in the state it was called in: the
    list of requests sent is the same, so no request was made. *)
Theorem non_mapping_fails_fast {G : Gerrit} (v : json) (st : state) :
  is_mapping v = false ->
  (forall b, Branch.get_mergeable_information b v st = (Raise InvalidArgument, st)) /\
  (forall c, Commit.cherry_pick c v st = (Raise InvalidArgument, st)) /\
  (forall name, Branches.create name v st = (Raise InvalidArgument, st)).
Proof.
  intros Hv. unfold Branch.get_mergeable_information, Commit.cherry_pick,
    Branches.create, check. rewrite Hv. repeat split.
Qed.

Lemma non_mapping_fails_fast_witness :
  is_mapping (JStr "master") = false /\
  @Branches.create (server [] "refs/heads/b") "b" (JStr "master") (snapshot "P" [])
  = (Raise InvalidArgument, snapshot "P" []).
Proof.
  split; [reflexivity|].
  apply (@non_mapping_fails_fast (server [] "refs/heads/b") (JStr "master")
           (snapshot "P" []) eq_refl).
Defined.

(** ** Assignment *)

Lemma setitem_without_prefix {G : Gerrit} (key : string) (value : json) (st : state) :
  startswith key Branches.branch_prefix = false ->
  Branches.__setitem__ key value st
  = (Raise (KeyError "branch ref should start with refs/heads/"), st).
Proof. intros Hk. unfold Branches.__setitem__. now rewrite Hk. Qed.

(** With the prefix, the assignment is [create] on the key with every
    [refs/heads/] replaced away, and its Branch is dropped. *)
Lemma setitem_delegates {G : Gerrit} (key : string) (value : json) (st : state) :
  startswith key Branches.branch_prefix = true ->
  Branches.__setitem__ key value st
  = (res_bind (fst (Branches.create (replace key Branches.branch_prefix "") value st))
       (fun _ => Ok tt),
     snd (Branches.create (replace key Branches.branch_prefix "") value st)).
Proof.
  intros Hk. unfold Branches.__setitem__. rewrite Hk. cbn [negb].
  unfold bind, ret.
  now destruct (Branches.create _ value st) as [[b|e] st'].
Qed.

(** C9, at a key that holds [refs/heads/] twice: the assignment asks the
    server for the branch [a/b], where [create] on the key without its
    leading prefix would ask for [a/refs/heads/b]. *)
Theorem setitem_creates_another_branch :
  let G := server [] "refs/heads/a/b" in
  let value := JObj [("revision", JStr "master")] in
  let key := "refs/heads/a/refs/heads/b" in
  startswith key Branches.branch_prefix = true /\
  @Branches.__setitem__ G key value (snapshot "P" [])
  = (Ok tt,
     {| requests := [Request PUT "/projects/P/branches/a/b"
                       [("revision", JStr "master")]];
        branches := {| project := "P"; _data := [] |} |}) /\
  requests (snd (@Branches.create G (strip_leading_prefix Branches.branch_prefix key)
                   value (snapshot "P" [])))
  = [Request PUT "/projects/P/branches/a/refs/heads/b" [("revision", JStr "master")]].
Proof. repeat split. Qed.

(** ** The loop of [poll] *)

Lemma poll_loop_step (i : nat) (l : list json) :
  poll_loop i l =
  match l !! i with
  | None => Ok l
  | Some item =>
      match getitem item "ref" with
      | Raise e => Raise e
      | Ok r =>
          if py_eq r (JStr "refs/meta/config")
          then match list_remove i item l with
               | Some l' => poll_loop (S i) l'
               | None => Raise ValueError
               end
          else poll_loop (S i) l
      end
  end.
Proof.
  funelim (poll_loop i l).
  all: try rewrite <- Heqcall.
  all: repeat match goal with
       | E : ?a = _ |- context [match ?a with _ => _ end] => rewrite E
       end.
  all: reflexivity.
Qed.

Lemma py_eq_JStr (x : json) (s : string) : py_eq x (JStr s) = true -> x = JStr s.
Proof.
  destruct x; simpl; try discriminate.
  intros Heq. apply String.eqb_eq in Heq. now subst.
Qed.

(** Equal dicts: what the left one holds, the right one holds too. *)
Lemma py_eq_dict_get (d1 d2 : dict) (k : string) (v : json) :
  py_eq (JObj d1) (JObj d2) = true ->
  dict_get k d1 = Some v ->
  exists v', dict_get k d2 = Some v' /\ py_eq v v' = true.
Proof.
  simpl. intros Heq. apply andb_true_iff in Heq as [_ Hall].
  induction d1 as [|[k1 v1] d1 IH]; simpl; [discriminate|].
  apply andb_true_iff in Hall as [Hhd Htl].
  destruct (String.eqb k1 k) eqn:Hk.
  - intros [= <-]. apply String.eqb_eq in Hk as ->.
    destruct (dict_get k d2) as [v'|]; [|discriminate]. eauto.
  - auto.
Qed.

(** A record that compares equal to a [refs/meta/config] record is one. *)
Lemma py_eq_ref_is (y m : json) (s : string) :
  has_ref y = true -> ref_is s m = true -> py_eq y m = true -> ref_is s y = true.
Proof.
  unfold has_ref, ref_is, getitem.
  destruct y as [| | | | |d1]; try discriminate.
  destruct m as [| | | | |d2]; try discriminate.
  destruct (dict_get "ref" d1) as [r1|] eqn:H1; [|discriminate].
  destruct (dict_get "ref" d2) as [r2|] eqn:H2; [|discriminate].
  intros _ Hm Heq.
  destruct (py_eq_dict_get _ _ _ _ Heq H1) as (r2' & H2' & Hr).
  rewrite H2 in H2'. injection H2' as <-.
  apply py_eq_JStr in Hm. now subst r2.
Qed.

Lemma plain_getitem (row : json) :
  plain row = true ->
  exists r, getitem row "ref" = Ok r /\ py_eq r (JStr "refs/meta/config") = false.
Proof.
  unfold plain, has_ref, ref_is, meta_config.
  destruct (getitem row "ref") as [r|e]; [|discriminate].
  intros Hp. apply andb_true_iff in Hp as [_ Hp].
  apply negb_true_iff in Hp. eauto.
Qed.

Lemma meta_getitem (row : json) :
  ref_is meta_config row = true ->
  exists r, getitem row "ref" = Ok r /\ py_eq r (JStr "refs/meta/config") = true.
Proof.
  unfold ref_is, meta_config.
  destruct (getitem row "ref") as [r|e]; [eauto | discriminate].
Qed.

(** Past the last [refs/meta/config] record nothing is removed. *)
Lemma poll_loop_plain (l : list json) (n i : nat) :
  length l - i = n ->
  Forall (fun row => plain row = true) (drop i l) ->
  poll_loop i l = Ok l.
Proof.
  revert i. induction n as [|n IH]; intros i Hn Hplain; rewrite poll_loop_step.
  - rewrite lookup_ge_None_2 by lia. reflexivity.
  - destruct (l !! i) as [item|] eqn:Hi; [|reflexivity].
    rewrite (drop_S _ _ _ Hi) in Hplain. inversion Hplain as [|? ? Hitem Hrest]; subst.
    destruct (plain_getitem _ Hitem) as (r & -> & ->).
    apply IH; [lia | exact Hrest].
Qed.

(** [remove] takes the record the iterator stands on when no earlier one
    compares equal to it. *)
Lemma list_remove_here (pre post : list json) (m : json) :
  Forall (fun row => py_eq row m = false) pre ->
  list_remove (length pre) m (pre ++ m :: post) = Some (pre ++ post).
Proof.
  induction 1 as [|y pre Hy _ IH]; simpl; [reflexivity|].
  now rewrite Hy, IH.
Qed.

(** One [refs/meta/config] record among plain ones: the loop removes it. *)
Lemma poll_loop_one_meta (pre post : list json) (m : json) (n i : nat) :
  length pre - i = n -> i <= length pre ->
  Forall (fun row => plain row = true) pre ->
  ref_is meta_config m = true ->
  Forall (fun row => plain row = true) post ->
  poll_loop i (pre ++ m :: post) = Ok (pre ++ post).
Proof.
  intros Hn Hi Hpre Hm Hpost. revert i Hn Hi.
  induction n as [|n IH]; intros i Hn Hi; rewrite poll_loop_step.
  - assert (i = length pre) as -> by lia.
    rewrite list_lookup_middle by reflexivity.
    destruct (meta_getitem _ Hm) as (r & -> & ->).
    rewrite list_remove_here.
    + apply (poll_loop_plain _ (length (pre ++ post) - S (length pre)) _ eq_refl).
      rewrite drop_app_ge by lia.
      apply Forall_drop. exact Hpost.
    + eapply Forall_impl; [exact Hpre|]. intros y Hy. simpl in Hy.
      destruct (py_eq y m) eqn:Heq; [|reflexivity].
      apply andb_true_iff in Hy as [Hy1 Hy2].
      rewrite (py_eq_ref_is _ _ _ Hy1 Hm Heq) in Hy2. discriminate.
  - rewrite lookup_app_l by lia.
    destruct (pre !! i) as [item|] eqn:Hitem.
    + assert (plain item = true) as Hp.
      { rewrite Forall_forall in Hpre. apply Hpre. eapply list_elem_of_lookup_2. exact Hitem. }
      destruct (plain_getitem _ Hp) as (r & -> & ->).
      apply IH; lia.
    + apply lookup_ge_None_1 in Hitem. lia.
Qed.

Lemma filter_plain (l : list json) :
  Forall (fun row => plain row = true) l -> List.filter not_meta l = l.
Proof.
  induction 1 as [|row l Hrow _ IH]; simpl; [reflexivity|].
  apply andb_true_iff in Hrow as [_ Hrow]. unfold not_meta at 1.
  rewrite Hrow. now f_equal.
Qed.

Lemma at_most_one_meta (l : list json) :
  Forall (fun row => has_ref row = true) l ->
  length (List.filter (ref_is meta_config) l) <= 1 ->
  Forall (fun row => plain row = true) l \/
  exists pre m post,
    l = pre ++ m :: post /\
    Forall (fun row => plain row = true) pre /\
    ref_is meta_config m = true /\
    Forall (fun row => plain row = true) post.
Proof.
  induction 1 as [|row l Hrow Hl IH]; simpl; intros Hcount; [left; constructor|].
  destruct (ref_is meta_config row) eqn:Hmeta; simpl in Hcount.
  - right. exists [], row, l. repeat split; [constructor | assumption |].
    destruct IH as [Hall|(pre & m & post & -> & _ & Hm & _)]; [lia | exact Hall |].
    rewrite List.filter_app in Hcount. simpl in Hcount. rewrite Hm in Hcount.
    rewrite length_app in Hcount. simpl in Hcount. lia.
  - assert (plain row = true) as Hp by (unfold plain; now rewrite Hrow, Hmeta).
    destruct (IH Hcount) as [Hall|(pre & m & post & -> & Hpre & Hm & Hpost)].
    + left. now constructor.
    + right. exists (row :: pre), m, post. repeat split; try assumption.
      now constructor.
Qed.

(** With at most one [refs/meta/config] record among records that all have
    a [ref], the loop is the filter the claims describe. *)
Lemma poll_loop_filters (l : list json) :
  Forall (fun row => has_ref row = true) l ->
  length (List.filter (ref_is meta_config) l) <= 1 ->
  poll_loop 0 l = Ok (List.filter not_meta l).
Proof.
  intros Hl Hcount.
  destruct (at_most_one_meta l Hl Hcount)
    as [Hall|(pre & m & post & -> & Hpre & Hm & Hpost)].
  - rewrite (filter_plain _ Hall).
    now apply (poll_loop_plain l (length l - 0) 0 eq_refl).
  - rewrite List.filter_app. simpl. unfold not_meta at 2. rewrite Hm. simpl.
    rewrite !filter_plain by assumption.
    apply (poll_loop_one_meta pre post m (length pre - 0) 0 eq_refl); auto with lia.
Qed.

(** Two [refs/meta/config] records at the head of a listing that is plain
    after them: the first is removed, the second is stepped over and stays. *)
Lemma poll_loop_two_meta (m1 m2 : json) (rest : list json) :
  ref_is meta_config m1 = true ->
  Forall (fun row => plain row = true) rest ->
  poll_loop 0 (m1 :: m2 :: rest) = Ok (m2 :: rest).
Proof.
  intros Hm1 Hrest. rewrite poll_loop_step. cbn [lookup list_lookup].
  destruct (meta_getitem _ Hm1) as (r & -> & ->). cbn [list_remove].
  now apply (poll_loop_plain (m2 :: rest) (length (m2 :: rest) - 1) 1 eq_refl).
Qed.

(** *** Construction *)

Lemma new_run {G : Gerrit} (p : string) (sent : list request)
      (resp : response) (l d : list json) :
  let rq := Request GET ("/projects/" +:+ p +:+ "/branches/") [] in
  reply sent rq = Ok resp ->
  decode_response resp = Ok (JArr l) ->
  poll_loop 0 l = Ok d ->
  Branches.new p sent
  = (Ok tt, {| requests := sent ++ [rq];
               branches := {| project := p; _data := d |} |}).
Proof.
  intros rq Hreply Hdecode Hloop.
  unfold Branches.new, Branches.__init__, Branches.poll, bind, set_project,
    get_self, make_call, lift, set_data. simpl.
  fold rq. rewrite Hreply, Hdecode. simpl. now rewrite Hloop.
Qed.

(** The spec's example scenario. *)
Example keys_of_example_scenario :
  let G := server [branch_info "refs/heads/master" "abc123";
                   branch_info "refs/meta/config" "def456"] "" in
  let st := snd (@Branches.new G "P" []) in
  fst (Branches.keys st) = Ok [JStr "refs/heads/master"] /\
  fst (Branches.__len__ st) = Ok 1.
Proof. split; reflexivity. Qed.

(** A listing with at most one [refs/meta/config] record: the snapshot is
    the listing without it, and [len] counts the other records. *)
Lemma len_of_listing {G : Gerrit} (p : string) (sent : list request)
      (resp : response) (l : list json) :
  reply sent (Request GET ("/projects/" +:+ p +:+ "/branches/") []) = Ok resp ->
  decode_response resp = Ok (JArr l) ->
  Forall (fun row => has_ref row = true) l ->
  length (List.filter (ref_is meta_config) l) <= 1 ->
  let st := snd (Branches.new p sent) in
  _data (branches st) = List.filter not_meta l /\
  fst (Branches.__len__ st) = Ok (length (List.filter not_meta l)).
Proof.
  intros Hreply Hdecode Hl Hcount.
  rewrite (new_run p sent resp l _ Hreply Hdecode (poll_loop_filters l Hl Hcount)).
  simpl. split; [reflexivity|]. rewrite len_run. simpl.
  assert (Forall (fun row => has_ref row = true) (List.filter not_meta l)) as Hf.
  { rewrite Forall_forall in *. intros row Hrow.
    apply list_elem_of_In, List.filter_In in Hrow as [Hrow _].
    apply Hl, list_elem_of_In, Hrow. }
  clear - Hf. induction Hf as [|row rows Hrow _ IH]; [reflexivity|].
  simpl. unfold has_ref in Hrow. destruct (getitem row "ref"); [|discriminate].
  simpl. destruct (iterkeys rows); [|discriminate]. simpl in *.
  injection IH as ->. reflexivity.
Qed.

(** C1, at a listing with two [refs/meta/config] records in a row: removing
    the first moves the second under the iterator's index, the loop steps
    over it, and it stays in the snapshot, in [keys()], in the iteration and
    as a member. *)
Theorem poll_leaves_second_meta_config :
  let G := server [branch_info "refs/meta/config" "def456";
                   branch_info "refs/meta/config" "789abc"] "" in
  let st := snd (@Branches.new G "P" []) in
  @Branches.new G "P" []
  = (Ok tt, {| requests := [Request GET "/projects/P/branches/" []];
               branches := {| project := "P";
                              _data := [branch_info "refs/meta/config" "789abc"] |} |}) /\
  fst (Branches.keys st) = Ok [JStr "refs/meta/config"] /\
  fst (Branches.__contains__ (JStr "refs/meta/config") st) = Ok true /\
  fst (Branches.__iter__ st)
  = Ok [Branch.parse (branch_info "refs/meta/config" "789abc") "P"].
Proof. repeat split. Qed.

(** C7, at a listing that ends with two [refs/meta/config] records: one of
    them survives the loop and [len] counts it. *)
Theorem len_counts_a_meta_config_record :
  let listing := [branch_info "refs/heads/master" "abc123";
                  branch_info "refs/meta/config" "def456";
                  branch_info "refs/meta/config" "def456"] in
  let G := server listing "" in
  let st := snd (@Branches.new G "P" []) in
  fst (Branches.__len__ st) = Ok 2 /\
  length (List.filter not_meta listing) = 1 /\
  fst (Branches.keys st) = Ok [JStr "refs/heads/master"; JStr "refs/meta/config"].
Proof. repeat split. Qed.

(** ** Lookup and membership in a snapshot whose records all have a [ref] *)

Lemma rows_with_ref_filter (ref : string) (rows : list json) :
  Forall (fun row => has_ref row = true) rows ->
  rows_with_ref ref rows = Ok (List.filter (ref_is ref) rows).
Proof.
  induction 1 as [|row rows Hrow _ IH]; simpl; [reflexivity|].
  unfold has_ref in Hrow. unfold ref_is at 1.
  destruct (getitem row "ref") as [r|e]; [|discriminate].
  simpl. rewrite IH. reflexivity.
Qed.

Lemma iterkeys_in (s : string) (rows : list json) :
  Forall (fun row => has_ref row = true) rows ->
  exists ks, iterkeys rows = Ok ks /\ py_in (JStr s) ks = existsb (ref_is s) rows.
Proof.
  induction 1 as [|row rows Hrow _ (ks & Hks & Hin)]; simpl; [now exists []|].
  unfold has_ref in Hrow. unfold ref_is at 1.
  destruct (getitem row "ref") as [r|e]; [|discriminate].
  rewrite Hks. simpl. exists (r :: ks). split; [reflexivity|].
  simpl. now rewrite Hin.
Qed.

Lemma ref_is_exact (s : string) (row : json) :
  ref_is s row = true <-> getitem row "ref" = Ok (JStr s).
Proof.
  unfold ref_is. destruct (getitem row "ref") as [r|e]; split; intros Hr;
    try discriminate.
  - f_equal. now apply py_eq_JStr.
  - injection Hr as ->. simpl. apply String.eqb_refl.
Qed.

Lemma filter_none (f : json -> bool) (rows : list json) :
  (forall row, row ∈ rows -> f row = false) -> List.filter f rows = [].
Proof.
  induction rows as [|row rows IH]; intros Hf; simpl; [reflexivity|].
  rewrite Hf by constructor. apply IH. intros r Hr. apply Hf. now constructor.
Qed.

(** C5: [branches[ref]] has three outcomes.  A ref without the prefix is
    refused with the invalid-key message; a ref with the prefix that no
    cached record carries raises [UnknownBranch] with that ref; otherwise the
    first cached record that carries it is returned as a Branch.  Each
    outcome leaves the state, and with it the list of requests sent, as it
    was.  The last two are for a snapshot whose records all have a [ref]. *)
Theorem getitem_three_cases (ref : string) (st : state) :
  (startswith ref Branches.branch_prefix = false ->
   Branches.__getitem__ ref st
   = (Raise (KeyError "branch ref should start with refs/heads/"), st)) /\
  (startswith ref Branches.branch_prefix = true ->
   Forall (fun row => has_ref row = true) (_data (branches st)) ->
   (forall row, row ∈ _data (branches st) -> getitem row "ref" <> Ok (JStr ref)) ->
   Branches.__getitem__ ref st = (Raise (UnknownBranch ref), st)) /\
  (startswith ref Branches.branch_prefix = true ->
   Forall (fun row => has_ref row = true) (_data (branches st)) ->
   forall pre row post,
     _data (branches st) = pre ++ row :: post ->
     (forall r, r ∈ pre -> getitem r "ref" <> Ok (JStr ref)) ->
     getitem row "ref" = Ok (JStr ref) ->
     Branches.__getitem__ ref st
     = (Ok (Branch.parse row (project (branches st))), st)).
Proof.
  repeat apply conj.
  - intros Hp. rewrite getitem_run, Hp. reflexivity.
  - intros Hp Hwf Hnone. rewrite getitem_run, Hp, rows_with_ref_filter by assumption.
    rewrite filter_none; [reflexivity|].
    intros row Hrow. destruct (ref_is ref row) eqn:Hr; [|reflexivity].
    apply ref_is_exact in Hr. now destruct (Hnone row Hrow).
  - intros Hp Hwf pre row post Hdata Hpre Hrow.
    rewrite getitem_run, Hp, rows_with_ref_filter by assumption.
    rewrite Hdata, List.filter_app, filter_none; simpl.
    + apply ref_is_exact in Hrow. now rewrite Hrow.
    + intros r Hr. destruct (ref_is ref r) eqn:Hm; [|reflexivity].
      apply ref_is_exact in Hm. now destruct (Hpre r Hr).
Qed.

Lemma getitem_three_cases_witness :
  let rows := [branch_info "refs/heads/master" "abc123";
               branch_info "refs/heads/dev" "def456";
               branch_info "refs/heads/dev" "0000"] in
  Branches.__getitem__ "dev" (snapshot "P" rows)
  = (Raise (KeyError "branch ref should start with refs/heads/"), snapshot "P" rows) /\
  Branches.__getitem__ "refs/heads/doesnotexist" (snapshot "P" rows)
  = (Raise (UnknownBranch "refs/heads/doesnotexist"), snapshot "P" rows) /\
  Branches.__getitem__ "refs/heads/dev" (snapshot "P" rows)
  = (Ok (Branch.parse (branch_info "refs/heads/dev" "def456") "P"), snapshot "P" rows).
Proof.
  intros rows.
  assert (Forall (fun row => has_ref row = true) rows) as Hwf
    by (repeat constructor).
  repeat apply conj.
  - apply (proj1 (getitem_three_cases "dev" (snapshot "P" rows))). reflexivity.
  - apply (proj1 (proj2 (getitem_three_cases "refs/heads/doesnotexist"
                           (snapshot "P" rows)))); [reflexivity | exact Hwf |].
    intros row Hrow. simpl in Hrow.
    repeat (apply elem_of_cons in Hrow as [->|Hrow]; [discriminate|]).
    now apply elem_of_nil in Hrow.
  - apply (proj2 (proj2 (getitem_three_cases "refs/heads/dev" (snapshot "P" rows)))
             eq_refl Hwf [branch_info "refs/heads/master" "abc123"]
             (branch_info "refs/heads/dev" "def456")
             [branch_info "refs/heads/dev" "0000"] eq_refl); [|reflexivity].
    intros r Hr. apply list_elem_of_singleton in Hr as ->. discriminate.
Defined.



(** ** Creation *)

Lemma iterkeys_rows_with_ref (ref : string) (rows ks : list json) :
  iterkeys rows = Ok ks ->
  rows_with_ref ref rows = Ok (List.filter (ref_is ref) rows) /\
  py_in (JStr ref) ks = existsb (ref_is ref) rows.
Proof.
  revert ks. induction rows as [|row rows IH]; simpl; intros ks Hks.
  - injection Hks as <-. split; reflexivity.
  - unfold ref_is at 1 3.
    destruct (getitem row "ref") as [r|e] eqn:Hg; simpl in Hks; [|discriminate].
    destruct (iterkeys rows) as [ks'|e]; simpl in Hks; [|discriminate].
    injection Hks as <-. destruct (IH ks' eq_refl) as [-> Hin].
    split; [reflexivity|]. simpl. unfold ref_is at 1. now rewrite Hg, Hin.
Qed.

Lemma filter_first (f : json -> bool) (rows : list json) :
  existsb f rows = true ->
  exists row rest, List.filter f rows = row :: rest /\ row ∈ rows /\ f row = true.
Proof.
  induction rows as [|r rows IH]; simpl; [discriminate|].
  destruct (f r) eqn:Hr; simpl.
  - intros _. exists r, (List.filter f rows).
    split; [reflexivity|]. split; [constructor | exact Hr].
  - intros Hex. destruct (IH Hex) as (row & rest & Hf & Hin & Hrow).
    exists row, rest. split; [exact Hf|]. split; [now constructor | exact Hrow].
Qed.

Section Create.
Context {G : Gerrit}.

(** A mapping whose ref is cached: [create] is [self[ref]]. *)
Lemma create_cached (name : string) (d : dict) (st : state) (ks : list json) :
  iterkeys (_data (branches st)) = Ok ks ->
  py_in (JStr (Branches.branch_prefix +:+ name)) ks = true ->
  Branches.create name (JObj d) st
  = Branches.__getitem__ (Branches.branch_prefix +:+ name) st.
Proof.
  intros Hks Hin. unfold Branches.create, check. cbn [is_mapping].
  unfold bind at 1. rewrite keys_run, Hks, Hin. reflexivity.
Qed.

(** A mapping whose ref is not cached: one [PUT], and the Branch is built
    from what the server answers. *)
Lemma create_remote (name : string) (d : dict) (st : state) (ks : list json) :
  iterkeys (_data (branches st)) = Ok ks ->
  py_in (JStr (Branches.branch_prefix +:+ name)) ks = false ->
  let rq := Request PUT ("/projects/" +:+ project (branches st) +:+ "/branches/"
                         +:+ name) d in
  Branches.create name (JObj d) st
  = (res_bind (res_bind (reply (requests st) rq) decode_response)
       (fun result => Ok (Branch.parse result (project (branches st)))),
     {| requests := requests st ++ [rq]; branches := branches st |}).
Proof.
  intros Hks Hin rq. unfold Branches.create, check. cbn [is_mapping].
  unfold bind at 1. rewrite keys_run, Hks, Hin.
  unfold bind, get_self, lift, kwargs, make_call, ret. fold rq.
  destruct (reply (requests st) rq) as [resp|e]; [|reflexivity].
  simpl. destruct (decode_response resp); reflexivity.
Qed.

End Create.

(** C2 as amended.  With a mapping as input and the ref among the cached
    keys, [create] is [self[ref]]: it returns the Branch of the first cached
    record with that ref, sends nothing, and gives the same for every
    mapping.  With the ref not among the cached keys every call sends one
    creation request and leaves the snapshot as it was, so a second call with
    the same name sends a second request and returns the Branch built from
    the server's second answer. *)
Theorem create_short_circuit_and_repeat {G : Gerrit}
        (name : string) (st : state) (ks : list json) :
  let ref := Branches.branch_prefix +:+ name in
  let rq := Request PUT ("/projects/" +:+ project (branches st) +:+ "/branches/"
                         +:+ name) in
  iterkeys (_data (branches st)) = Ok ks ->
  (py_in (JStr ref) ks = true ->
   exists row,
     row ∈ _data (branches st) /\ getitem row "ref" = Ok (JStr ref) /\
     forall d,
       Branches.create name (JObj d) st = Branches.__getitem__ ref st /\
       Branches.create name (JObj d) st
       = (Ok (Branch.parse row (project (branches st))), st)) /\
  (py_in (JStr ref) ks = false ->
   forall d d',
     let st1 := snd (Branches.create name (JObj d) st) in
     let second := Branches.create name (JObj d') st1 in
     requests st1 = requests st ++ [rq d] /\
     branches st1 = branches st /\
     requests (snd second) = requests st ++ [rq d; rq d'] /\
     fst second
     = res_bind (res_bind (reply (requests st ++ [rq d]) (rq d')) decode_response)
         (fun result => Ok (Branch.parse result (project (branches st))))).
Proof.
  intros ref rq Hks. split; intros Hin.
  - destruct (iterkeys_rows_with_ref ref _ _ Hks) as [Hrows Hex].
    rewrite Hin in Hex. symmetry in Hex.
    destruct (filter_first _ _ Hex) as (row & rest & Hf & Hrow & Hr).
    exists row. split; [exact Hrow|]. split; [now apply ref_is_exact|].
    intros d. rewrite (create_cached name d st ks Hks Hin).
    split; [reflexivity|].
    rewrite getitem_run. unfold startswith, ref. rewrite prefix_append.
    cbn [negb]. fold ref. rewrite Hrows, Hf. reflexivity.
  - intros d d' st1 second.
    assert (Hst1 : st1 = {| requests := requests st ++ [rq d];
                            branches := branches st |}).
    { unfold st1. now rewrite (create_remote name d st ks Hks Hin). }
    assert (Hsecond : second =
      (res_bind (res_bind (reply (requests st ++ [rq d]) (rq d')) decode_response)
         (fun result => Ok (Branch.parse result (project (branches st)))),
       {| requests := (requests st ++ [rq d]) ++ [rq d'];
          branches := branches st |})).
    { unfold second. rewrite Hst1.
      now rewrite (create_remote name d'
                     {| requests := requests st ++ [rq d]; branches := branches st |}
                     ks Hks Hin). }
    rewrite Hsecond, Hst1. simpl. rewrite <- app_assoc. repeat split.
Qed.

Lemma create_short_circuit_and_repeat_witness :
  let G := server [] "refs/heads/b" in
  let rows := [branch_info "refs/heads/master" "abc123"] in
  let d := [("revision", JStr "master")] in
  @Branches.create G "master" (JObj d) (snapshot "P" rows)
  = Branches.__getitem__ "refs/heads/master" (snapshot "P" rows) /\
  requests (snd (@Branches.create G "b" (JObj d)
                   (snd (@Branches.create G "b" (JObj d) (snapshot "P" rows)))))
  = [Request PUT "/projects/P/branches/b" d; Request PUT "/projects/P/branches/b" d].
Proof.
  intros G rows d.
  pose proof (@create_short_circuit_and_repeat G "master" (snapshot "P" rows)
                [JStr "refs/heads/master"] eq_refl) as [Hcached _].
  pose proof (@create_short_circuit_and_repeat G "b" (snapshot "P" rows)
                [JStr "refs/heads/master"] eq_refl) as [_ Hremote].
  split.
  - destruct (Hcached eq_refl) as (row & _ & _ & Hrow). exact (proj1 (Hrow d)).
  - exact (proj1 (proj2 (proj2 (Hremote eq_refl d d)))).
Defined.

(** C2 as stated fails twice.  On an empty snapshot two calls of [create]
    with one name send two creation requests, and the second returns the
    Branch of the server's second answer, no branch being cached.  And a
    cached ref does not keep [create] from reading its input: one that is
    not a mapping is refused. *)
Lemma create_twice_sends_two_requests :
  let G := server [] "refs/heads/b" in
  let d := JObj [("revision", JStr "master")] in
  let st0 := snd (@Branches.new G "P" []) in
  let first := @Branches.create G "b" d st0 in
  let second := @Branches.create G "b" d (snd first) in
  fst (Branches.keys (snd first)) = Ok [] /\
  requests (snd second)
  = [Request GET "/projects/P/branches/" [];
     Request PUT "/projects/P/branches/b" [("revision", JStr "master")];
     Request PUT "/projects/P/branches/b" [("revision", JStr "master")]] /\
  fst second = Ok (Branch.parse (branch_info "refs/heads/b" "later") "P") /\
  fst second <> fst first /\
  @Branches.create G "master" (JStr "abc123")
    (snapshot "P" [branch_info "refs/heads/master" "abc123"])
  = (Raise InvalidArgument, snapshot "P" [branch_info "refs/heads/master" "abc123"]).
Proof.
  repeat apply conj; try reflexivity.
  intros Heq. vm_compute in Heq. discriminate.
Qed.

(** ** File content *)

Lemma quote_escape_reserved (s : string) : quote s "" = escape_reserved s.
Proof.
  induction s as [|c s IH]; simpl; [reflexivity|].
  unfold quote_byte. simpl. rewrite orb_false_r. now rewrite IH.
Qed.

Lemma hex_value_hex_digit (k : nat) : k < 16 -> hex_value (hex_digit k) = Some k.
Proof.
  intros Hk. do 16 (destruct k as [|k]; [reflexivity|]). lia.
Qed.

Lemma hex_digit_safe (k : nat) : k < 16 -> always_safe (hex_digit k) = true.
Proof.
  intros Hk. do 16 (destruct k as [|k]; [reflexivity|]). lia.
Qed.

Lemma always_safe_not_percent (c : ascii) :
  always_safe c = true -> Ascii.eqb c "%" = false.
Proof.
  intros Hc. destruct (Ascii.eqb c "%") eqn:E; [|reflexivity].
  apply Ascii.eqb_eq in E. subst c. discriminate.
Qed.

Lemma unquote_plain (c : ascii) (t : string) :
  Ascii.eqb c "%" = false -> unquote (String c t) = String c (unquote t).
Proof. intros Hc. cbn [unquote]. rewrite Hc. reflexivity. Qed.

Lemma byte_high_low (c : ascii) :
  nat_of_ascii c / 16 < 16 /\ nat_of_ascii c mod 16 < 16 /\
  ascii_of_nat (16 * (nat_of_ascii c / 16) + nat_of_ascii c mod 16) = c.
Proof.
  pose proof (nat_ascii_bounded c) as Hb.
  split; [apply Nat.Div0.div_lt_upper_bound; lia|].
  split; [apply Nat.mod_upper_bound; lia|].
  rewrite <- Nat.div_mod_eq. apply ascii_nat_embedding.
Qed.

Lemma unquote_percent (c : ascii) (t : string) :
  unquote (percent c +:+ t) = String c (unquote t).
Proof.
  destruct (byte_high_low c) as (Hh & Hl & Hc).
  change (percent c +:+ t) with
    (String "%" (String (hex_digit (nat_of_ascii c / 16))
                   (String (hex_digit (nat_of_ascii c mod 16)) t))).
  cbn [unquote]. change (Ascii.eqb "%" "%") with true. cbv iota.
  rewrite (hex_value_hex_digit _ Hh), (hex_value_hex_digit _ Hl), Hc.
  reflexivity.
Qed.

(** What [quote] writes, the server's decoding reads back. *)
Lemma unquote_quote (s : string) : unquote (quote s "") = s.
Proof.
  rewrite quote_escape_reserved.
  induction s as [|c s IH]; [reflexivity|]. cbn [escape_reserved].
  destruct (always_safe c) eqn:Hc.
  - change (String c "" +:+ ?t) with (String c t).
    rewrite unquote_plain by now apply always_safe_not_percent. now rewrite IH.
  - rewrite unquote_percent. now rewrite IH.
Qed.

(** The encoded file is made of unreserved bytes and [%] alone: no byte of
    it, and no [/] in particular, can end the path segment. *)
Lemma quote_segment (s : string) :
  Forall (fun c => segment_byte c = true) (list_ascii_of_string (quote s "")).
Proof.
  rewrite quote_escape_reserved.
  induction s as [|c s IH]; [constructor|]. cbn [escape_reserved].
  destruct (byte_high_low c) as (Hh & Hl & _).
  destruct (always_safe c) eqn:Hc.
  - constructor; [|exact IH]. unfold segment_byte. now rewrite Hc.
  - unfold percent. cbn [String.append list_ascii_of_string].
    repeat constructor; try exact IH; unfold segment_byte.
    + now rewrite (hex_digit_safe _ Hh).
    + now rewrite (hex_digit_safe _ Hl).
Qed.

Lemma slash_not_segment_byte : segment_byte "/" = false.
Proof. reflexivity. Qed.

(** C8 as amended.  Both [get_file_content] send one GET whose path is the
    template with the file encoded by [quote(file, safe='')]: the bytes
    [quote] never escapes (ASCII letters, digits, [_], [.], [-], [~]) stay
    and every other byte, [/] included, becomes [%XX]; the encoding is read
    back by percent-decoding.  What [decode_response] gives for the response
    is returned as it is. *)
Theorem get_file_content_request {G : Gerrit} (file : string) (st : state) :
  (forall b n,
     Branch.name b = Ok n ->
     let rq := Request GET ("/projects/" +:+ Branch.project b +:+ "/branches/" +:+ n
                            +:+ "/files/" +:+ quote file "" +:+ "/content") [] in
     Branch.get_file_content b file st
     = (res_bind (reply (requests st) rq) decode_response,
        {| requests := requests st ++ [rq]; branches := branches st |})) /\
  (forall c,
     let rq := Request GET ("/projects/" +:+ Commit.project c +:+ "/commits/"
                            +:+ Commit.commit c
                            +:+ "/files/" +:+ quote file "" +:+ "/content") [] in
     Commit.get_file_content c file st
     = (res_bind (reply (requests st) rq) decode_response,
        {| requests := requests st ++ [rq]; branches := branches st |})) /\
  quote file "" = escape_reserved file /\
  unquote (quote file "") = file /\
  Forall (fun c => segment_byte c = true) (list_ascii_of_string (quote file "")).
Proof.
  repeat apply conj.
  - intros b n Hn rq. unfold Branch.get_file_content, bind at 1, lift at 1.
    rewrite Hn. subst rq. unfold bind, make_call, lift.
    now destruct (reply (requests st) _).
  - intros c rq. subst rq. unfold Commit.get_file_content, bind, make_call, lift.
    now destruct (reply (requests st) _).
  - apply quote_escape_reserved.
  - apply unquote_quote.
  - apply quote_segment.
Qed.

Lemma get_file_content_request_witness :
  let G := server [] "" in
  let b := Branch.parse (branch_info "refs/heads/master" "abc123") "P" in
  Branch.name b = Ok "master" /\
  @Branch.get_file_content G b "docs/read me.txt" (snapshot "P" [])
  = (Ok (JArr []),
     {| requests :=
          [Request GET "/projects/P/branches/master/files/docs%2Fread%20me.txt/content" []];
        branches := {| project := "P"; _data := [] |} |}).
Proof.
  intros G b. split; [reflexivity|].
  exact (proj1 (@get_file_content_request G "docs/read me.txt" (snapshot "P" []))
           b "master" eq_refl).
Defined.

(** C8 as stated fails on a file name of unreserved characters: [quote]
    leaves [a.txt] as it is, where escaping every character gives
    [%61%2E%74%78%74], and the request path carries the name unescaped. *)
Lemma quote_keeps_unreserved_characters :
  let G := server [] "" in
  let b := Branch.parse (branch_info "refs/heads/master" "abc123") "P" in
  quote "a.txt" "" = "a.txt" /\
  escape_every_character "a.txt" = "%61%2E%74%78%74" /\
  quote "a.txt" "" <> escape_every_character "a.txt" /\
  requests (snd (@Branch.get_file_content G b "a.txt" (snapshot "P" [])))
  = [Request GET "/projects/P/branches/master/files/a.txt/content" []] /\
  requests (snd (@Commit.get_file_content G
                   {| Commit.commit := "184ebe53"; Commit.project := "P" |}
                   "a.txt" (snapshot "P" [])))
  = [Request GET "/projects/P/commits/184ebe53/files/a.txt/content" []].
Proof. repeat apply conj; try reflexivity. discriminate. Qed.

(** * Further properties of the code *)

(** ** What an operation sends *)

Lemma state_eta (st : state) :
  st = {| requests := requests st ++ []; branches := branches st |}.
Proof. destruct st. simpl. now rewrite app_nil_r. Qed.

Lemma emits_silent (meth : method) {A : Type} (m : M A) : silent m -> emits meth m.
Proof.
  intros Hm st. exists []. rewrite Hm. split; [apply state_eta | now left].
Qed.

Lemma emits_make_call {G : Gerrit} (meth : method) (e : string) (p : dict) :
  emits meth (make_call meth e p).
Proof. intros st. exists [Request meth e p]. split; [reflexivity | right; eauto]. Qed.

Lemma emits_bind_silent_l (meth : method) {A B : Type} (m : M A) (k : A -> M B) :
  silent m -> (forall a, emits meth (k a)) -> emits meth (bind m k).
Proof.
  intros Hm Hk st. unfold bind. specialize (Hm st).
  destruct (m st) as [[a|e] st1]; simpl in Hm; subst st1.
  - apply Hk.
  - exists []. split; [apply state_eta | now left].
Qed.

Lemma emits_bind_silent_r (meth : method) {A B : Type} (m : M A) (k : A -> M B) :
  emits meth m -> (forall a, silent (k a)) -> emits meth (bind m k).
Proof.
  intros Hm Hk st. unfold bind. destruct (Hm st) as (rqs & Hst & Hrqs).
  destruct (m st) as [[a|e] st1]; simpl in Hst; subst st1.
  - exists rqs. now rewrite Hk.
  - exists rqs. now split.
Qed.

Lemma emits_check (meth : method) {A : Type} (v : json) (m : M A) :
  emits meth m -> emits meth (check v m).
Proof.
  intros Hm. unfold check. destruct (is_mapping v); [exact Hm|].
  apply emits_silent, silent_raise.
Qed.

Section Emits.
Context {G : Gerrit}.

(** A request followed by the reading of its response. *)
Lemma emits_call_then (meth : method) {A : Type} (e : string) (p : dict)
      (k : response -> res A) :
  emits meth (bind (make_call meth e p) (fun r => lift (k r))).
Proof.
  apply emits_bind_silent_r; [apply emits_make_call | intros r; apply silent_lift].
Qed.

Lemma emits_branch_get_file_content (b : Branch.t) (file : string) :
  emits GET (Branch.get_file_content b file).
Proof.
  unfold Branch.get_file_content.
  apply emits_bind_silent_l; [apply silent_lift | intros n; apply emits_call_then].
Qed.

Lemma emits_get_mergeable_information (b : Branch.t) (v : json) :
  emits GET (Branch.get_mergeable_information b v).
Proof.
  unfold Branch.get_mergeable_information. apply emits_check.
  apply emits_bind_silent_l; [apply silent_lift | intros n].
  apply emits_bind_silent_l; [apply silent_lift | intros kw; apply emits_call_then].
Qed.

Lemma emits_get_reflog (b : Branch.t) : emits GET (Branch.get_reflog b).
Proof.
  unfold Branch.get_reflog.
  apply emits_bind_silent_l; [apply silent_lift | intros n; apply emits_call_then].
Qed.

Lemma emits_branch_delete (b : Branch.t) : emits DELETE (Branch.delete b).
Proof.
  unfold Branch.delete.
  apply emits_bind_silent_l; [apply silent_lift | intros n; apply emits_call_then].
Qed.

Lemma emits_cherry_pick (c : Commit.t) (v : json) : emits POST (Commit.cherry_pick c v).
Proof.
  unfold Commit.cherry_pick. apply emits_check.
  apply emits_bind_silent_l; [apply silent_lift | intros kw; apply emits_call_then].
Qed.

Lemma emits_poll : emits GET Branches.poll.
Proof.
  unfold Branches.poll.
  apply emits_bind_silent_l; [apply silent_get_self | intros self].
  apply emits_bind_silent_r; [apply emits_make_call | intros r].
  apply silent_bind; [apply silent_lift | intros result].
  apply silent_bind; [apply silent_lift | intros items; apply silent_lift].
Qed.

Lemma emits_create (name : string) (v : json) : emits PUT (Branches.create name v).
Proof.
  unfold Branches.create. apply emits_check.
  apply emits_bind_silent_l; [apply silent_keys | intros ks].
  destruct (py_in _ ks); [apply emits_silent, silent_getitem|].
  apply emits_bind_silent_l; [apply silent_get_self | intros self].
  apply emits_bind_silent_l; [apply silent_lift | intros kw].
  apply emits_bind_silent_r; [apply emits_make_call | intros r].
  apply silent_bind; [apply silent_lift | intros result; apply silent_ret].
Qed.

Lemma emits_setitem (key : string) (v : json) : emits PUT (Branches.__setitem__ key v).
Proof.
  unfold Branches.__setitem__. destruct (negb _); [apply emits_silent, silent_raise|].
  apply emits_bind_silent_r; [apply emits_create | intros b; apply silent_ret].
Qed.

Lemma emits_delitem (key : string) : emits DELETE (Branches.__delitem__ key).
Proof.
  unfold Branches.__delitem__.
  apply emits_bind_silent_l; [apply silent_getitem | intros b; apply emits_branch_delete].
Qed.

Lemma silent_len : silent Branches.__len__.
Proof. intros st. now rewrite len_run. Qed.

Lemma silent_contains (r : json) : silent (Branches.__contains__ r).
Proof. intros st. now rewrite contains_run. Qed.

Lemma silent_iter : silent Branches.__iter__.
Proof. intros st. now rewrite iter_run. Qed.

End Emits.

(** X1: what each operation may send.  The readers of the collection send
    nothing and change nothing.  Every other operation sends at most one
    request after those already sent, of one fixed method (GET for the reads
    and for [poll], PUT for [create] and item assignment, DELETE for the two
    deletions, POST for [cherry_pick]), and leaves the [Branches] object as it
    found it, whatever its outcome. *)
Theorem operations_send_at_most_one_request {G : Gerrit} :
  (silent Branches.keys /\ silent Branches.__len__ /\
   (forall r, silent (Branches.__contains__ r)) /\
   (forall ref, silent (Branches.__getitem__ ref)) /\ silent Branches.__iter__) /\
  ((forall b file, emits GET (Branch.get_file_content b file)) /\
   (forall b v, emits GET (Branch.get_mergeable_information b v)) /\
   (forall b, emits GET (Branch.get_reflog b)) /\
   (forall b, emits DELETE (Branch.delete b))) /\
  ((forall c, emits GET (Commit.get_include_in c)) /\
   (forall c file, emits GET (Commit.get_file_content c file)) /\
   (forall c v, emits POST (Commit.cherry_pick c v)) /\
   (forall c, emits GET (Commit.list_change_files c))) /\
  (emits GET Branches.poll /\
   (forall name v, emits PUT (Branches.create name v)) /\
   (forall key v, emits PUT (Branches.__setitem__ key v)) /\
   (forall key, emits DELETE (Branches.__delitem__ key))).
Proof.
  repeat apply conj; intros.
  - apply silent_keys.
  - apply silent_len.
  - apply silent_contains.
  - apply silent_getitem.
  - apply silent_iter.
  - apply emits_branch_get_file_content.
  - apply emits_get_mergeable_information.
  - apply emits_get_reflog.
  - apply emits_branch_delete.
  - apply emits_call_then.
  - apply emits_call_then.
  - apply emits_cherry_pick.
  - apply emits_call_then.
  - apply emits_poll.
  - apply emits_create.
  - apply emits_setitem.
  - apply emits_delitem.
Qed.

(** ** The listing and the snapshot *)

(** What [remove] takes out: the record at the iterator's index, or an
    earlier one that compares equal to it. *)
Lemma list_remove_split (i : nat) (x : json) (l l' : list json) :
  list_remove i x l = Some l' ->
  exists pre y post,
    l = pre ++ y :: post /\ l' = pre ++ post /\
    (length pre = i \/ py_eq y x = true).
Proof.
  revert i l'. induction l as [|z l IH]; intros i l' Hr; simpl in Hr; [discriminate|].
  destruct i as [|k].
  - injection Hr as <-. exists [], z, l. auto.
  - destruct (py_eq z x) eqn:Hz.
    + injection Hr as <-. exists [], z, l. auto.
    + destruct (list_remove k x l) as [l0|] eqn:Hl; simpl in Hr; [|discriminate].
      injection Hr as <-.
      destruct (IH k l0 Hl) as (pre & y & post & -> & -> & Hy).
      exists (z :: pre), y, post. repeat split. simpl. destruct Hy; auto.
Qed.

Lemma filter_plain_middle (pre post : list json) (y : json) :
  plain y = false ->
  List.filter plain (pre ++ y :: post) = List.filter plain (pre ++ post).
Proof. intros Hy. rewrite !List.filter_app. simpl. now rewrite Hy. Qed.

(** The loop only takes records out, and never one that has a [ref] other
    than [refs/meta/config]. *)
Lemma poll_loop_keeps_plain (l : list json) (n i : nat) (d : list json) :
  length l - i <= n ->
  poll_loop i l = Ok d ->
  sublist d l /\ List.filter plain d = List.filter plain l.
Proof.
  revert l i d. induction n as [|n IH]; intros l i d Hn; rewrite poll_loop_step.
  - rewrite lookup_ge_None_2 by lia. intros [= <-]. split; reflexivity.
  - destruct (l !! i) as [item|] eqn:Hi; [|intros [= <-]; split; reflexivity].
    destruct (getitem item "ref") as [r|e] eqn:Hg; [|discriminate].
    destruct (py_eq r (JStr "refs/meta/config")) eqn:Hr.
    + destruct (list_remove i item l) as [l'|] eqn:Hrm; [|discriminate].
      intros Hloop.
      destruct (list_remove_split _ _ _ _ Hrm) as (pre & y & post & -> & -> & Hy).
      assert (ref_is meta_config item = true) as Hitem
        by (unfold ref_is, meta_config; now rewrite Hg).
      assert (plain y = false) as Hplain.
      { destruct (plain y) eqn:Hp; [|reflexivity].
        apply andb_true_iff in Hp as [Hp1 Hp2].
        destruct Hy as [Hlen|Heq].
        - rewrite list_lookup_middle in Hi by now symmetry.
          injection Hi as ->. rewrite Hitem in Hp2. discriminate.
        - rewrite (py_eq_ref_is _ _ _ Hp1 Hitem Heq) in Hp2. discriminate. }
      apply lookup_lt_Some in Hi. rewrite length_app in Hi, Hn. simpl in Hi, Hn.
      assert (length (pre ++ post) - S i <= n) as Hm
        by (rewrite length_app; lia).
      destruct (IH (pre ++ post) (S i) d Hm Hloop) as [Hsub Hfil].
      split.
      * etransitivity; [exact Hsub|].
        apply sublist_app; [reflexivity | now apply sublist_cons].
      * now rewrite Hfil, filter_plain_middle.
    + intros Hloop. apply (IH l (S i) d); [|exact Hloop].
      apply lookup_lt_Some in Hi. lia.
Qed.

(** A record the loop reaches and cannot read ends it with that error. *)
Lemma poll_loop_bad_row (pre post : list json) (row : json) (e : exn) (n i : nat) :
  length pre - i = n -> i <= length pre ->
  Forall (fun r => plain r = true) pre ->
  getitem row "ref" = Raise e ->
  poll_loop i (pre ++ row :: post) = Raise e.
Proof.
  intros Hn Hi Hpre Hrow. revert i Hn Hi.
  induction n as [|n IH]; intros i Hn Hi; rewrite poll_loop_step.
  - assert (i = length pre) as -> by lia.
    rewrite list_lookup_middle by reflexivity. now rewrite Hrow.
  - rewrite lookup_app_l by lia.
    destruct (pre !! i) as [item|] eqn:Hitem.
    + assert (plain item = true) as Hp.
      { rewrite Forall_forall in Hpre. apply Hpre.
        eapply list_elem_of_lookup_2. exact Hitem. }
      destruct (plain_getitem _ Hp) as (r & -> & ->).
      apply IH; lia.
    + apply lookup_ge_None_1 in Hitem. lia.
Qed.

Lemma getitem_error (row : json) (e : exn) :
  getitem row "ref" = Raise e -> e = KeyError "ref" \/ e = TypeError.
Proof.
  destruct row as [| | | | |d]; simpl; try (intros [= <-]; now right).
  destruct (dict_get "ref" d); [discriminate | intros [= <-]; now left].
Qed.

Section Construction.
Context {G : Gerrit}.

Lemma new_sends_listing_request (p : string) (sent : list request) :
  requests (snd (Branches.new p sent))
  = sent ++ [Request GET ("/projects/" +:+ p +:+ "/branches/") []].
Proof.
  unfold Branches.new, Branches.__init__, Branches.poll, bind, set_project,
    get_self, make_call, lift, set_data. simpl.
  destruct (reply sent _) as [resp|e]; [|reflexivity]. simpl.
  destruct (decode_response resp) as [result|e]; [|reflexivity]. simpl.
  destruct (py_iter result) as [items|e]; [|reflexivity]. simpl.
  destruct (poll_loop 0 items); reflexivity.
Qed.

Lemma new_result (p : string) (sent : list request) :
  let rq := Request GET ("/projects/" +:+ p +:+ "/branches/") [] in
  fst (Branches.new p sent)
  = res_bind (reply sent rq) (fun resp =>
    res_bind (decode_response resp) (fun result =>
    res_bind (py_iter result) (fun items =>
    res_bind (poll_loop 0 items) (fun _ => Ok tt)))).
Proof.
  intros rq.
  unfold Branches.new, Branches.__init__, Branches.poll, bind, set_project,
    get_self, make_call, lift, set_data. simpl. fold rq.
  destruct (reply sent rq) as [resp|e]; [|reflexivity]. simpl.
  destruct (decode_response resp) as [result|e]; [|reflexivity]. simpl.
  destruct (py_iter result) as [items|e]; [|reflexivity]. simpl.
  destruct (poll_loop 0 items); reflexivity.
Qed.

Lemma new_data (p : string) (sent : list request) (resp : response)
      (l : list json) (st : state) :
  reply sent (Request GET ("/projects/" +:+ p +:+ "/branches/") []) = Ok resp ->
  decode_response resp = Ok (JArr l) ->
  Branches.new p sent = (Ok tt, st) ->
  poll_loop 0 l = Ok (_data (branches st)) /\ project (branches st) = p.
Proof.
  intros Hreply Hdecode.
  unfold Branches.new, Branches.__init__, Branches.poll, bind, set_project,
    get_self, make_call, lift, set_data. simpl.
  rewrite Hreply, Hdecode. simpl.
  destruct (poll_loop 0 l) as [d|e]; [|discriminate].
  intros [= <-]. simpl. auto.
Qed.

End Construction.

(** X2: whatever list of records the server returns, a [Branches] object
    that is constructed holds a sub-sequence of it, in the server's order,
    that still has every record with a [ref] other than [refs/meta/config]:
    [poll] only takes records out, and never one of those. *)
Theorem snapshot_keeps_the_branches {G : Gerrit} (p : string) (sent : list request)
        (resp : response) (l : list json) (st : state) :
  reply sent (Request GET ("/projects/" +:+ p +:+ "/branches/") []) = Ok resp ->
  decode_response resp = Ok (JArr l) ->
  Branches.new p sent = (Ok tt, st) ->
  sublist (_data (branches st)) l /\
  List.filter plain (_data (branches st)) = List.filter plain l /\
  length (_data (branches st)) <= length l.
Proof.
  intros Hreply Hdecode Hnew.
  destruct (new_data p sent resp l st Hreply Hdecode Hnew) as [Hloop _].
  destruct (poll_loop_keeps_plain l _ 0 _ (Nat.le_refl _) Hloop) as [Hsub Hfil].
  repeat split; [exact Hsub | exact Hfil | now apply sublist_length].
Qed.

Lemma snapshot_keeps_the_branches_witness :
  let l := [branch_info "refs/meta/config" "def456";
            branch_info "refs/meta/config" "789abc";
            branch_info "refs/heads/master" "abc123"] in
  let G := server l "" in
  let st := snd (@Branches.new G "P" []) in
  sublist (_data (branches st)) l /\
  List.filter plain (_data (branches st)) = [branch_info "refs/heads/master" "abc123"].
Proof.
  intros l G st.
  destruct (@snapshot_keeps_the_branches G "P" []
              {| status_code := 200; body := JArr l |} l st eq_refl eq_refl eq_refl)
    as (Hsub & Hfil & _).
  split; [exact Hsub | exact Hfil].
Defined.

(** X3: with at most one [refs/meta/config] record in a listing whose
    records all have a [ref], construction succeeds after one GET of
    [/projects/<project>/branches/], the snapshot is the listing without that
    record, in the server's order, and no cached record is
    [refs/meta/config]. *)
Theorem new_drops_the_meta_config_record {G : Gerrit} (p : string)
        (sent : list request) (resp : response) (l : list json) :
  let rq := Request GET ("/projects/" +:+ p +:+ "/branches/") [] in
  reply sent rq = Ok resp ->
  decode_response resp = Ok (JArr l) ->
  Forall (fun row => has_ref row = true) l ->
  length (List.filter (ref_is meta_config) l) <= 1 ->
  Branches.new p sent
  = (Ok tt, {| requests := sent ++ [rq];
               branches := {| project := p; _data := List.filter not_meta l |} |}) /\
  fst (Branches.__contains__ (JStr meta_config) (snd (Branches.new p sent)))
  = Ok false.
Proof.
  intros rq Hreply Hdecode Hl Hcount.
  rewrite (new_run p sent resp l _ Hreply Hdecode (poll_loop_filters l Hl Hcount)).
  split; [reflexivity|]. rewrite contains_run. cbn [snd fst branches _data].
  assert (Forall (fun row => has_ref row = true) (List.filter not_meta l)) as Hf.
  { rewrite Forall_forall in *. intros row Hrow.
    apply list_elem_of_In, List.filter_In in Hrow as [Hrow _].
    apply Hl, list_elem_of_In, Hrow. }
  destruct (iterkeys_in meta_config _ Hf) as (ks & -> & Hin).
  cbn [res_bind]. rewrite Hin. f_equal.
  apply not_true_is_false. intros Hex.
  apply existsb_exists in Hex as (row & Hrow & Hmeta).
  apply List.filter_In in Hrow as [_ Hrow]. unfold not_meta in Hrow.
  rewrite Hmeta in Hrow. discriminate.
Qed.

Lemma new_drops_the_meta_config_record_witness :
  let l := [branch_info "refs/heads/master" "abc123";
            branch_info "refs/meta/config" "def456";
            branch_info "refs/heads/dev" "0000"] in
  @Branches.new (server l "") "P" []
  = (Ok tt, {| requests := [Request GET "/projects/P/branches/" []];
               branches := {| project := "P";
                              _data := [branch_info "refs/heads/master" "abc123";
                                        branch_info "refs/heads/dev" "0000"] |} |}).
Proof.
  intros l.
  refine (proj1 (@new_drops_the_meta_config_record (server l "") "P" []
                   {| status_code := 200; body := JArr l |} l eq_refl eq_refl _ _)).
  - repeat constructor.
  - simpl. lia.
Defined.

(** X4: construction fails with the first error it meets, after exactly
    one request, the GET of the listing: the transport's error, the
    decoder's, or, for a listing whose first record that is not a plain
    branch record cannot be read, [KeyError('ref')] for a mapping without
    [ref] and [TypeError] for a record that is no mapping. *)
Theorem new_fails_with_the_first_error {G : Gerrit} (p : string) (sent : list request) :
  let rq := Request GET ("/projects/" +:+ p +:+ "/branches/") [] in
  requests (snd (Branches.new p sent)) = sent ++ [rq] /\
  (forall e, reply sent rq = Raise e -> fst (Branches.new p sent) = Raise e) /\
  (forall resp e, reply sent rq = Ok resp -> decode_response resp = Raise e ->
                  fst (Branches.new p sent) = Raise e) /\
  (forall resp pre row post e,
     reply sent rq = Ok resp ->
     decode_response resp = Ok (JArr (pre ++ row :: post)) ->
     Forall (fun r => plain r = true) pre ->
     getitem row "ref" = Raise e ->
     fst (Branches.new p sent) = Raise e /\ (e = KeyError "ref" \/ e = TypeError)).
Proof.
  intros rq. split; [apply new_sends_listing_request|].
  repeat apply conj.
  - intros e Hreply. rewrite new_result. fold rq. now rewrite Hreply.
  - intros resp e Hreply Hdecode. rewrite new_result. fold rq.
    rewrite Hreply. simpl. now rewrite Hdecode.
  - intros resp pre row post e Hreply Hdecode Hpre Hrow.
    split; [|exact (getitem_error _ _ Hrow)].
    rewrite new_result. fold rq. rewrite Hreply. simpl. rewrite Hdecode. simpl.
    now rewrite (poll_loop_bad_row pre post row e _ 0 eq_refl (Nat.le_0_l _) Hpre Hrow).
Qed.

Lemma new_fails_with_the_first_error_witness :
  let l := [branch_info "refs/heads/master" "abc123";
            JObj [("revision", JStr "def456")];
            branch_info "refs/heads/dev" "0000"] in
  fst (@Branches.new (server l "") "P" []) = Raise (KeyError "ref").
Proof.
  intros l.
  refine (proj1 (proj2 (proj2 (proj2
            (@new_fails_with_the_first_error (server l "") "P" [])))
            {| status_code := 200; body := JArr l |}
            [branch_info "refs/heads/master" "abc123"]
            (JObj [("revision", JStr "def456")])
            [branch_info "refs/heads/dev" "0000"] (KeyError "ref")
            eq_refl eq_refl _ eq_refl)).
  repeat constructor.
Defined.

(** X5: calling [poll()] on a constructed object sends the listing request
    again but assigns nothing: [_data], and with it [keys()], [len()], [in]
    and iteration, are afterwards what they were. *)
Theorem poll_does_not_refresh {G : Gerrit} (st : state) :
  let st' := snd (Branches.poll st) in
  requests st'
  = requests st ++ [Request GET ("/projects/" +:+ project (branches st)
                                 +:+ "/branches/") []] /\
  _data (branches st') = _data (branches st) /\
  same_reads st st'.
Proof.
  assert (branches (snd (Branches.poll st)) = branches st) as Hb
    by apply keeps_poll.
  cbv zeta. split; [|split; [now rewrite Hb | now apply same_reads_of_snapshot]].
  unfold Branches.poll, bind, get_self, make_call, lift. simpl.
  destruct (reply (requests st) _) as [resp|e]; [|reflexivity]. simpl.
  destruct (decode_response resp) as [result|e]; [|reflexivity]. simpl.
  destruct (py_iter result) as [items|e]; reflexivity.
Qed.

(** ** Keys, length, iteration and lookup on one snapshot *)

Lemma iterkeys_refs (rows : list json) :
  Forall (fun row => has_ref row = true) rows ->
  exists ks,
    iterkeys rows = Ok ks /\ length ks = length rows /\
    map (fun row => getitem row "ref") rows = map Ok ks.
Proof.
  induction 1 as [|row rows Hrow _ (ks & Hks & Hlen & Hmap)]; [now exists []|].
  unfold has_ref in Hrow. simpl.
  destruct (getitem row "ref") as [r|e] eqn:Hr; [|discriminate].
  exists (r :: ks). rewrite Hks. simpl. rewrite Hlen, Hmap. auto.
Qed.

Lemma iterkeys_error (rows : list json) :
  Exists (fun row => has_ref row = false) rows ->
  exists e, iterkeys rows = Raise e /\ (e = KeyError "ref" \/ e = TypeError).
Proof.
  induction 1 as [row rows Hrow|row rows _ (e & He & Hkind)]; simpl.
  - unfold has_ref in Hrow.
    destruct (getitem row "ref") as [r|e] eqn:Hr; [discriminate|].
    exists e. split; [reflexivity | exact (getitem_error _ _ Hr)].
  - destruct (getitem row "ref") as [r|e'] eqn:Hr; simpl.
    + exists e. now rewrite He.
    + exists e'. split; [reflexivity | exact (getitem_error _ _ Hr)].
Qed.

Lemma rows_with_ref_error (s : string) (rows : list json) (e : exn) :
  iterkeys rows = Raise e -> rows_with_ref s rows = Raise e.
Proof.
  induction rows as [|row rows IH]; simpl; [discriminate|].
  destruct (getitem row "ref") as [r|e']; simpl; [|auto].
  destruct (iterkeys rows) as [ks|e']; simpl; [discriminate|].
  intros [= ->]. now rewrite IH.
Qed.

Lemma attribute_getitem (row r : json) :
  getitem row "ref" = Ok r -> attribute row "ref" = Ok r.
Proof.
  destruct row as [| | | | |d]; simpl; try discriminate.
  now destruct (dict_get "ref" d).
Qed.

Lemma getitem_found (s : string) (st : state) :
  startswith s Branches.branch_prefix = true ->
  Forall (fun row => has_ref row = true) (_data (branches st)) ->
  existsb (ref_is s) (_data (branches st)) = true ->
  exists row,
    row ∈ _data (branches st) /\ getitem row "ref" = Ok (JStr s) /\
    List.filter (ref_is s) (_data (branches st)) = row :: tl (List.filter (ref_is s) (_data (branches st))) /\
    Branches.__getitem__ s st = (Ok (Branch.parse row (project (branches st))), st).
Proof.
  intros Hs Hwf Hex.
  destruct (filter_first _ _ Hex) as (row & rest & Hf & Hrow & Hr).
  exists row. split; [exact Hrow|]. split; [now apply ref_is_exact|].
  split; [now rewrite Hf|].
  rewrite getitem_run, Hs, rows_with_ref_filter, Hf by assumption. reflexivity.
Qed.

Lemma getitem_missing (s : string) (st : state) :
  startswith s Branches.branch_prefix = true ->
  Forall (fun row => has_ref row = true) (_data (branches st)) ->
  existsb (ref_is s) (_data (branches st)) = false ->
  Branches.__getitem__ s st = (Raise (UnknownBranch s), st).
Proof.
  intros Hs Hwf Hex.
  rewrite getitem_run, Hs, rows_with_ref_filter by assumption.
  rewrite filter_none; [reflexivity|].
  intros row Hrow. destruct (ref_is s row) eqn:Hr; [|reflexivity].
  assert (existsb (ref_is s) (_data (branches st)) = true) as Habs
    by (apply existsb_exists; exists row; split; [now apply list_elem_of_In | exact Hr]).
  congruence.
Qed.

Lemma contains_wf (s : string) (st : state) :
  Forall (fun row => has_ref row = true) (_data (branches st)) ->
  Branches.__contains__ (JStr s) st
  = (Ok (existsb (ref_is s) (_data (branches st))), st).
Proof.
  intros Hwf. destruct (iterkeys_in s _ Hwf) as (ks & Hks & Hin).
  rewrite contains_run, Hks. simpl. now rewrite Hin.
Qed.

(** X6: on a snapshot whose records all have a [ref], [keys()] gives the
    refs in snapshot order, [len()] is the number of cached records, and the
    iteration gives as many Branch objects, the i-th of which has the i-th key
    as its [ref] and the collection's project as its project. *)
Theorem keys_len_and_iteration_agree (st : state) :
  Forall (fun row => has_ref row = true) (_data (branches st)) ->
  exists ks bs,
    Branches.keys st = (Ok ks, st) /\
    Branches.__len__ st = (Ok (length (_data (branches st))), st) /\
    Branches.__iter__ st = (Ok bs, st) /\
    length ks = length bs /\
    map Branch.ref bs = map Ok ks /\
    Forall (fun b => Branch.project b = project (branches st)) bs.
Proof.
  intros Hwf. destruct (iterkeys_refs _ Hwf) as (ks & Hks & Hlen & Hmap).
  exists ks, (map (fun row => Branch.parse row (project (branches st)))
                  (_data (branches st))).
  rewrite keys_run, len_run, iter_run, Hks. simpl. rewrite Hlen, length_map.
  repeat split.
  - rewrite <- Hmap, map_map. apply map_ext_in. intros row Hrow.
    unfold Branch.ref. simpl.
    rewrite Forall_forall in Hwf. specialize (Hwf row (proj2 (list_elem_of_In _ _) Hrow)).
    unfold has_ref in Hwf. destruct (getitem row "ref") as [r|e] eqn:Hr; [|discriminate].
    now apply attribute_getitem.
  - apply Forall_map. apply Forall_forall. reflexivity.
Qed.

Lemma keys_len_and_iteration_agree_witness :
  let st := snapshot "P" [branch_info "refs/heads/master" "abc123";
                          branch_info "refs/heads/dev" "0000"] in
  exists ks bs,
    Branches.keys st = (Ok ks, st) /\
    Branches.__len__ st = (Ok 2, st) /\
    Branches.__iter__ st = (Ok bs, st) /\
    map Branch.ref bs = map Ok ks.
Proof.
  intros st.
  destruct (keys_len_and_iteration_agree st) as (ks & bs & Hk & Hl & Hi & _ & Hm & _).
  - repeat constructor.
  - exists ks, bs. auto.
Defined.

(** X7: one cached record without a readable [ref] makes [keys()],
    [len()], every [in] test, every lookup of a prefixed ref and every
    [create] with a mapping raise the error of reading it ([KeyError('ref')]
    or [TypeError]), without a request; the iteration still yields a Branch
    for every cached record. *)
Theorem unreadable_record_breaks_the_readers {G : Gerrit} (st : state) :
  Exists (fun row => has_ref row = false) (_data (branches st)) ->
  exists e,
    (e = KeyError "ref" \/ e = TypeError) /\
    Branches.keys st = (Raise e, st) /\
    Branches.__len__ st = (Raise e, st) /\
    (forall r, Branches.__contains__ r st = (Raise e, st)) /\
    (forall s, startswith s Branches.branch_prefix = true ->
               Branches.__getitem__ s st = (Raise e, st)) /\
    (forall name d, Branches.create name (JObj d) st = (Raise e, st)) /\
    exists bs, Branches.__iter__ st = (Ok bs, st) /\
               length bs = length (_data (branches st)).
Proof.
  intros Hbad. destruct (iterkeys_error _ Hbad) as (e & He & Hkind).
  exists e. split; [exact Hkind|].
  rewrite keys_run, len_run, iter_run, He. simpl.
  repeat apply conj; try reflexivity.
  - intros r. now rewrite contains_run, He.
  - intros s Hs. now rewrite getitem_run, Hs, (rows_with_ref_error s _ _ He).
  - intros name d. unfold Branches.create, check. cbn [is_mapping].
    unfold bind at 1. now rewrite keys_run, He.
  - eexists. split; [reflexivity | apply length_map].
Qed.

Lemma unreadable_record_breaks_the_readers_witness :
  let l := [branch_info "refs/meta/config" "def456"; JObj [("revision", JStr "abc123")]] in
  let st := snd (@Branches.new (server l "") "P" []) in
  fst (@Branches.new (server l "") "P" []) = Ok tt /\
  exists e, Branches.keys st = (Raise e, st) /\ Branches.__len__ st = (Raise e, st).
Proof.
  intros l st. split; [reflexivity|].
  destruct (@unreadable_record_breaks_the_readers (server l "") st)
    as (e & _ & Hk & Hl & _).
  - apply Exists_cons_hd. reflexivity.
  - exists e. auto.
Defined.

(** X8: for a ref with the prefix, on a snapshot whose records all have a
    [ref], membership and lookup agree: [ref in branches] is true exactly
    when [branches[ref]] returns a Branch, which then has that very ref and
    the collection's project, and false exactly when the lookup raises
    [UnknownBranch]. *)
Theorem membership_agrees_with_lookup (s : string) (st : state) :
  startswith s Branches.branch_prefix = true ->
  Forall (fun row => has_ref row = true) (_data (branches st)) ->
  (fst (Branches.__contains__ (JStr s) st) = Ok true /\
   exists b, Branches.__getitem__ s st = (Ok b, st) /\
             Branch.ref b = Ok (JStr s) /\
             Branch.project b = project (branches st)) \/
  (fst (Branches.__contains__ (JStr s) st) = Ok false /\
   Branches.__getitem__ s st = (Raise (UnknownBranch s), st)).
Proof.
  intros Hs Hwf. rewrite (contains_wf s st Hwf). simpl.
  destruct (existsb (ref_is s) (_data (branches st))) eqn:Hex.
  - left. split; [reflexivity|].
    destruct (getitem_found s st Hs Hwf Hex) as (row & _ & Hr & _ & Hget).
    exists (Branch.parse row (project (branches st))).
    split; [exact Hget|]. split; [|reflexivity].
    unfold Branch.ref. simpl. now apply attribute_getitem.
  - right. split; [reflexivity|]. now apply getitem_missing.
Qed.

Lemma membership_agrees_with_lookup_witness :
  let st := snapshot "P" [branch_info "refs/heads/master" "abc123"] in
  fst (Branches.__contains__ (JStr "refs/heads/dev") st) = Ok false /\
  Branches.__getitem__ "refs/heads/dev" st = (Raise (UnknownBranch "refs/heads/dev"), st).
Proof.
  intros st.
  destruct (membership_agrees_with_lookup "refs/heads/dev" st eq_refl)
    as [[Hc _]|H]; [repeat constructor | discriminate Hc | exact H].
Defined.

Lemma iterkeys_elem (rows ks : list json) (row v : json) :
  iterkeys rows = Ok ks -> row ∈ rows -> getitem row "ref" = Ok v -> v ∈ ks.
Proof.
  revert ks. induction rows as [|r rows IH]; intros ks Hks Hrow Hv.
  - now apply elem_of_nil in Hrow.
  - simpl in Hks. destruct (getitem r "ref") as [k|e] eqn:Hk; simpl in Hks; [|discriminate].
    destruct (iterkeys rows) as [ks'|e]; simpl in Hks; [|discriminate].
    injection Hks as <-. apply elem_of_cons in Hrow as [->|Hrow].
    + rewrite Hk in Hv. injection Hv as ->. constructor.
    + constructor. now apply (IH ks').
Qed.

(** With no ref cached twice, the first record with a ref is the only one. *)
Lemma first_with_ref_unique (s : string) (rows ks rest : list json) (row row' : json) :
  iterkeys rows = Ok ks -> NoDup ks ->
  List.filter (ref_is s) rows = row :: rest ->
  row' ∈ rows -> getitem row' "ref" = Ok (JStr s) ->
  row' = row.
Proof.
  revert ks. induction rows as [|r rows IH]; intros ks Hks Hnd Hf Hrow' Hr'.
  - now apply elem_of_nil in Hrow'.
  - simpl in Hks. destruct (getitem r "ref") as [k|e] eqn:Hk; simpl in Hks; [|discriminate].
    destruct (iterkeys rows) as [ks'|e] eqn:Hks'; simpl in Hks; [|discriminate].
    injection Hks as <-. apply NoDup_cons in Hnd as [Hnotin Hnd].
    simpl in Hf. destruct (ref_is s r) eqn:Hrs.
    + injection Hf as <- _. apply ref_is_exact in Hrs.
      rewrite Hk in Hrs. injection Hrs as ->.
      apply elem_of_cons in Hrow' as [->|Hrow']; [reflexivity|].
      destruct Hnotin. exact (iterkeys_elem _ _ _ _ Hks' Hrow' Hr').
    + apply elem_of_cons in Hrow' as [->|Hrow'].
      * apply ref_is_exact in Hr'. congruence.
      * exact (IH ks' eq_refl Hnd Hf Hrow' Hr').
Qed.

Lemma iterkeys_ok_wf (rows ks : list json) :
  iterkeys rows = Ok ks -> Forall (fun row => has_ref row = true) rows.
Proof.
  revert ks. induction rows as [|r rows IH]; intros ks Hks; [constructor|].
  simpl in Hks. unfold has_ref.
  destruct (getitem r "ref") as [k|e] eqn:Hk; simpl in Hks; [|discriminate].
  destruct (iterkeys rows) as [ks'|e]; simpl in Hks; [|discriminate].
  constructor; [now rewrite Hk | now apply (IH ks')].
Qed.

Lemma attribute_ok_getitem (row v : json) :
  attribute row "ref" = Ok v -> getitem row "ref" = Ok v.
Proof.
  destruct row as [| | | | |d]; simpl; try discriminate.
  now destruct (dict_get "ref" d).
Qed.

Lemma existsb_ref_is (s : string) (rows : list json) :
  existsb (ref_is s) rows = true <->
  exists row, row ∈ rows /\ getitem row "ref" = Ok (JStr s).
Proof.
  rewrite existsb_exists. split; intros (row & Hrow & Hr); exists row.
  - split; [now apply list_elem_of_In | now apply ref_is_exact].
  - split; [now apply list_elem_of_In | now apply ref_is_exact].
Qed.

(** X9: on a snapshot in which no ref is cached twice, every Branch the
    iteration yields whose ref has the prefix is the Branch that looking up
    its ref returns. *)
Theorem iterated_branch_is_found_again (st : state) (ks : list json)
        (all : list Branch.t) (b : Branch.t) (s : string) :
  Branches.keys st = (Ok ks, st) ->
  NoDup ks ->
  Branches.__iter__ st = (Ok all, st) ->
  b ∈ all ->
  Branch.ref b = Ok (JStr s) ->
  startswith s Branches.branch_prefix = true ->
  Branches.__getitem__ s st = (Ok b, st).
Proof.
  rewrite keys_run, iter_run. intros [= Hks] Hnd [= <-] Hb Href Hs.
  apply list_elem_of_fmap in Hb as (row & -> & Hrow).
  unfold Branch.ref in Href. simpl in Href. apply attribute_ok_getitem in Href.
  pose proof (iterkeys_ok_wf _ _ Hks) as Hwf.
  assert (existsb (ref_is s) (_data (branches st)) = true) as Hex
    by (apply existsb_ref_is; eauto).
  destruct (getitem_found s st Hs Hwf Hex) as (row0 & _ & _ & Hf & ->).
  now rewrite (first_with_ref_unique s _ ks _ row0 row Hks Hnd Hf Hrow Href).
Qed.

Lemma iterated_branch_is_found_again_witness :
  let rows := [branch_info "refs/heads/master" "abc123";
               branch_info "refs/heads/dev" "0000"] in
  Branches.__getitem__ "refs/heads/dev" (snapshot "P" rows)
  = (Ok (Branch.parse (branch_info "refs/heads/dev" "0000") "P"), snapshot "P" rows).
Proof.
  intros rows.
  apply (iterated_branch_is_found_again (snapshot "P" rows)
           [JStr "refs/heads/master"; JStr "refs/heads/dev"]
           [Branch.parse (branch_info "refs/heads/master" "abc123") "P";
            Branch.parse (branch_info "refs/heads/dev" "0000") "P"]);
    try reflexivity.
  - apply NoDup_cons_2; [|apply NoDup_singleton].
    intros Hin. apply list_elem_of_singleton in Hin. discriminate.
  - apply elem_of_cons. right. apply list_elem_of_singleton. reflexivity.
Defined.

(** ** Deleting and assigning through the collection *)

(** X10: [del branches[key]] sends nothing when the lookup fails: a key
    without the prefix raises the invalid-key error and a key that no cached
    record carries raises [UnknownBranch].  For a cached key that holds
    [refs/heads/] at its front only, it sends exactly one request, the DELETE
    of [/projects/<project>/branches/<key without the prefix>], and its
    outcome is that of [raise_for_status] on the response. *)
Theorem delitem_sends_one_delete {G : Gerrit} (key : string) (st : state) :
  (startswith key Branches.branch_prefix = false ->
   Branches.__delitem__ key st
   = (Raise (KeyError "branch ref should start with refs/heads/"), st)) /\
  (startswith key Branches.branch_prefix = true ->
   Forall (fun row => has_ref row = true) (_data (branches st)) ->
   (forall row, row ∈ _data (branches st) -> getitem row "ref" <> Ok (JStr key)) ->
   Branches.__delitem__ key st = (Raise (UnknownBranch key), st)) /\
  (startswith key Branches.branch_prefix = true ->
   Forall (fun row => has_ref row = true) (_data (branches st)) ->
   (exists row, row ∈ _data (branches st) /\ getitem row "ref" = Ok (JStr key)) ->
   occurs Branches.branch_prefix (drop_chars 1 key) = false ->
   let rq := Request DELETE
               ("/projects/" +:+ project (branches st) +:+ "/branches/"
                +:+ strip_leading_prefix Branches.branch_prefix key) [] in
   Branches.__delitem__ key st
   = (res_bind (reply (requests st) rq) raise_for_status,
      {| requests := requests st ++ [rq]; branches := branches st |})).
Proof.
  repeat apply conj.
  - intros Hk. unfold Branches.__delitem__, bind. rewrite getitem_run, Hk. reflexivity.
  - intros Hk Hwf Hnone. unfold Branches.__delitem__, bind.
    rewrite getitem_missing; auto.
    apply not_true_is_false. intros Hex.
    apply existsb_ref_is in Hex as (row & Hrow & Hr). exact (Hnone row Hrow Hr).
  - intros Hk Hwf Hsome Hocc rq. apply existsb_ref_is in Hsome.
    destruct (getitem_found key st Hk Hwf Hsome) as (row & _ & Hr & _ & Hget).
    unfold Branches.__delitem__, bind at 1. rewrite Hget.
    unfold Branch.delete, bind at 1, lift at 1.
    rewrite (name_of_plain_ref row _ key (attribute_getitem _ _ Hr) Hocc).
    subst rq. unfold bind, make_call, lift. simpl.
    now destruct (reply (requests st) _).
Qed.

Lemma delitem_sends_one_delete_witness :
  let G := server [] "" in
  let rows := [branch_info "refs/heads/feature/x" "abc123"] in
  @Branches.__delitem__ G "feature/x" (snapshot "P" rows)
  = (Raise (KeyError "branch ref should start with refs/heads/"), snapshot "P" rows) /\
  @Branches.__delitem__ G "refs/heads/dev" (snapshot "P" rows)
  = (Raise (UnknownBranch "refs/heads/dev"), snapshot "P" rows) /\
  @Branches.__delitem__ G "refs/heads/feature/x" (snapshot "P" rows)
  = (Ok tt, {| requests := [Request DELETE "/projects/P/branches/feature/x" []];
               branches := {| project := "P"; _data := rows |} |}).
Proof.
  intros G rows.
  assert (Forall (fun row => has_ref row = true) rows) as Hwf by (repeat constructor).
  repeat apply conj.
  - apply (proj1 (@delitem_sends_one_delete G "feature/x" (snapshot "P" rows))).
    reflexivity.
  - apply (proj1 (proj2 (@delitem_sends_one_delete G "refs/heads/dev"
                           (snapshot "P" rows)))); [reflexivity | exact Hwf |].
    intros row Hrow. apply list_elem_of_singleton in Hrow as ->. discriminate.
  - apply (proj2 (proj2 (@delitem_sends_one_delete G "refs/heads/feature/x"
                           (snapshot "P" rows))) eq_refl Hwf); [|reflexivity].
    exists (branch_info "refs/heads/feature/x" "abc123").
    split; [apply list_elem_of_singleton; reflexivity | reflexivity].
Defined.

(** X11: assigning a mapping to the key [refs/heads/<n>], where [n] itself
    holds no [refs/heads/], yields [None] without a request when the key is
    cached, and otherwise sends exactly one request, the PUT of
    [/projects/<project>/branches/<n>] with the mapping as payload, and
    yields [None] once the response decodes; the snapshot is not touched. *)
Theorem setitem_creates_the_named_branch {G : Gerrit} (n : string) (d : dict)
        (st : state) (ks : list json) :
  occurs Branches.branch_prefix n = false ->
  iterkeys (_data (branches st)) = Ok ks ->
  let key := Branches.branch_prefix +:+ n in
  (py_in (JStr key) ks = true ->
   Branches.__setitem__ key (JObj d) st = (Ok tt, st)) /\
  (py_in (JStr key) ks = false ->
   let rq := Request PUT ("/projects/" +:+ project (branches st) +:+ "/branches/"
                          +:+ n) d in
   Branches.__setitem__ key (JObj d) st
   = (res_bind (res_bind (reply (requests st) rq) decode_response)
        (fun _ => Ok tt),
      {| requests := requests st ++ [rq]; branches := branches st |})).
Proof.
  intros Hocc Hks key.
  assert (startswith key Branches.branch_prefix = true) as Hk
    by apply prefix_append.
  assert (replace key Branches.branch_prefix "" = n) as Hn
    by now apply replace_leading_only.
  split; intros Hin; [|intros rq]; rewrite (setitem_delegates key _ st Hk), Hn.
  - rewrite (create_cached n d st ks Hks Hin). fold key.
    pose proof (iterkeys_ok_wf _ _ Hks) as Hwf.
    destruct (iterkeys_rows_with_ref key _ _ Hks) as [_ Hex].
    rewrite Hin in Hex. symmetry in Hex.
    destruct (getitem_found key st Hk Hwf Hex) as (row & _ & _ & _ & ->).
    reflexivity.
  - rewrite (create_remote n d st ks Hks Hin). fold rq. simpl.
    destruct (reply (requests st) rq) as [resp|e]; [|reflexivity]. simpl.
    now destruct (decode_response resp).
Qed.

Lemma setitem_creates_the_named_branch_witness :
  let G := server [] "refs/heads/feature/x" in
  let rows := [branch_info "refs/heads/master" "abc123"] in
  let d := [("revision", JStr "master")] in
  @Branches.__setitem__ G "refs/heads/master" (JObj d) (snapshot "P" rows)
  = (Ok tt, snapshot "P" rows) /\
  @Branches.__setitem__ G "refs/heads/feature/x" (JObj d) (snapshot "P" rows)
  = (Ok tt, {| requests := [Request PUT "/projects/P/branches/feature/x" d];
               branches := {| project := "P"; _data := rows |} |}).
Proof.
  intros G rows d. split.
  - apply (proj1 (@setitem_creates_the_named_branch G "master" d (snapshot "P" rows)
                    [JStr "refs/heads/master"] eq_refl eq_refl)). reflexivity.
  - apply (proj2 (@setitem_creates_the_named_branch G "feature/x" d (snapshot "P" rows)
                    [JStr "refs/heads/master"] eq_refl eq_refl)). reflexivity.
Defined.

(** ** The name of a branch *)

Lemma replace_from_length (old : string) (k : nat) (s : string) :
  String.length (replace_from old "" k s) + Nat.min k (String.length s)
  <= String.length s.
Proof.
  revert k. induction s as [|c s IH]; intros k; [simpl; lia|].
  destruct k as [|k]; cbn [replace_from String.length].
  - destruct (String.prefix old (String c s)).
    + change ("" +:+ ?t) with t.
      specialize (IH (String.length old - 1)). lia.
    + specialize (IH 0). cbn [String.length]. lia.
  - specialize (IH k). lia.
Qed.

Lemma replace_from_shorter (c : ascii) (p s : string) :
  occurs (String c p) s = true ->
  String.length (replace_from (String c p) "" 0 s) < String.length s.
Proof.
  induction s as [|d s IH]; [discriminate|].
  cbn [occurs replace_from]. intros Hocc.
  destruct (String.prefix (String c p) (String d s)) eqn:Hp.
  - change ("" +:+ ?t) with t.
    pose proof (replace_from_length (String c p) (String.length (String c p) - 1) s).
    cbn [String.length] in *. lia.
  - simpl in Hocc. specialize (IH Hocc). cbn [String.length]. lia.
Qed.

(** X12: the name of a branch is never longer than its ref, and it is the
    ref itself exactly when [refs/heads/] occurs nowhere in the ref. *)
Theorem name_is_ref_without_prefixes (b : Branch.t) (s : string) :
  Branch.ref b = Ok (JStr s) ->
  exists n,
    Branch.name b = Ok n /\
    String.length n <= String.length s /\
    (n = s <-> occurs Branch.branch_prefix s = false).
Proof.
  intros Href. exists (replace s Branch.branch_prefix "").
  unfold Branch.name. rewrite Href. cbn [res_bind].
  split; [reflexivity|]. split.
  - pose proof (replace_from_length Branch.branch_prefix 0 s) as Hlen.
    unfold replace, Branch.branch_prefix in *. lia.
  - split; intros Hs.
    + destruct (occurs Branch.branch_prefix s) eqn:Hocc; [|reflexivity].
      pose proof (replace_from_shorter "r" "efs/heads/" s Hocc) as Hlt.
      unfold replace, Branch.branch_prefix in Hs. rewrite Hs in Hlt. lia.
    + now apply replace_absent.
Qed.

Lemma name_is_ref_without_prefixes_witness :
  exists n,
    Branch.name (Branch.parse (branch_info "refs/heads/main" "abc123") "P") = Ok n /\
    String.length n <= 15.
Proof.
  destruct (name_is_ref_without_prefixes
              (Branch.parse (branch_info "refs/heads/main" "abc123") "P")
              "refs/heads/main" eq_refl) as (n & Hn & Hlen & _).
  exists n. split; [exact Hn | exact Hlen].
Defined.

(** X13: a Branch whose raw record has no [str] under [ref] has no name:
    [name] raises [AttributeError], and so do [get_file_content],
    [get_reflog], [delete] and, for a mapping, [get_mergeable_information],
    each before any request is sent. *)
Theorem branch_without_ref_sends_nothing {G : Gerrit} (b : Branch.t) (st : state) :
  (forall s, Branch.ref b <> Ok (JStr s)) ->
  exists a,
    Branch.name b = Raise (AttributeError a) /\
    (forall file, Branch.get_file_content b file st = (Raise (AttributeError a), st)) /\
    Branch.get_reflog b st = (Raise (AttributeError a), st) /\
    Branch.delete b st = (Raise (AttributeError a), st) /\
    (forall d, Branch.get_mergeable_information b (JObj d) st
               = (Raise (AttributeError a), st)).
Proof.
  intros Href.
  assert (exists a, Branch.name b = Raise (AttributeError a)) as (a & Ha).
  { unfold Branch.name. destruct (Branch.ref b) as [r|e] eqn:Hr.
    - destruct r; simpl; eauto. now destruct (Href s).
    - unfold Branch.ref, attribute in Hr.
      destruct (Branch.raw b) as [| | | | |d]; try (injection Hr as <-; simpl; eauto).
      destruct (dict_get "ref" d); [discriminate|]. injection Hr as <-. simpl. eauto. }
  exists a. split; [exact Ha|].
  unfold Branch.get_file_content, Branch.get_reflog, Branch.delete,
    Branch.get_mergeable_information, check, bind, lift.
  rewrite Ha. repeat split.
Qed.

Lemma branch_without_ref_sends_nothing_witness :
  let b := Branch.parse (JObj [("revision", JStr "abc123")]) "P" in
  exists a, @Branch.delete (server [] "") b (snapshot "P" [])
            = (Raise (AttributeError a), snapshot "P" []).
Proof.
  intros b.
  destruct (@branch_without_ref_sends_nothing (server [] "") b (snapshot "P" []))
    as (a & _ & _ & _ & Hd & _).
  - intros s. discriminate.
  - exists a. exact Hd.
Defined.

(** ** The encoded file name *)

Lemma length_append (a b : string) :
  String.length (a +:+ b) = String.length a + String.length b.
Proof. induction a as [|c a IH]; simpl; [reflexivity | now rewrite IH]. Qed.

Lemma append_inv_head (a x y : string) : a +:+ x = a +:+ y -> x = y.
Proof. induction a as [|c a IH]; simpl; [auto | intros [= H]; auto]. Qed.

Lemma append_inv_tail (x y t : string) : x +:+ t = y +:+ t -> x = y.
Proof.
  intros Heq.
  assert (String.length x = String.length y) as Hlen.
  { apply (f_equal String.length) in Heq. rewrite !length_append in Heq. lia. }
  revert y Heq Hlen. induction x as [|c x IH]; intros [|d y] Heq Hlen;
    simpl in Hlen; try lia; [reflexivity|].
  simpl in Heq. injection Heq as -> Heq. f_equal. apply IH; [exact Heq | lia].
Qed.

Lemma quote_length (s : string) :
  String.length s <= String.length (quote s "") <= 3 * String.length s.
Proof.
  induction s as [|c s IH]; simpl; [lia|].
  rewrite length_append. unfold quote_byte.
  destruct (always_safe c || _); simpl; lia.
Qed.

Lemma quote_injective (s t : string) : quote s "" = quote t "" -> s = t.
Proof.
  intros Heq. rewrite <- (unquote_quote s), <- (unquote_quote t). now rewrite Heq.
Qed.

(** X14: two file names are fetched through the same request exactly when
    they are the same name: the paths that [Commit.get_file_content] and, on
    a branch that has a name, [Branch.get_file_content] send determine the
    file. *)
Theorem file_requests_determine_the_file {G : Gerrit} (f1 f2 : string) (st : state) :
  (quote f1 "" = quote f2 "" <-> f1 = f2) /\
  (forall c,
     requests (snd (Commit.get_file_content c f1 st))
     = requests (snd (Commit.get_file_content c f2 st)) <-> f1 = f2) /\
  (forall b n,
     Branch.name b = Ok n ->
     (requests (snd (Branch.get_file_content b f1 st))
      = requests (snd (Branch.get_file_content b f2 st)) <-> f1 = f2)).
Proof.
  split; [split; [apply quote_injective | now intros ->]|].
  split.
  - intros c. split; [|now intros ->]. intros Heq. apply quote_injective.
    assert (Hrun : forall f,
      requests (snd (Commit.get_file_content c f st))
      = requests st ++ [Request GET ("/projects/" +:+ Commit.project c +:+ "/commits/"
                                     +:+ Commit.commit c +:+ "/files/" +:+ quote f ""
                                     +:+ "/content") []]).
    { intros f. unfold Commit.get_file_content, bind, make_call, lift.
      now destruct (reply (requests st) _). }
    rewrite !Hrun in Heq. apply app_inv_head in Heq. injection Heq as Heq.
    do 5 apply append_inv_head in Heq. now apply append_inv_tail in Heq.
  - intros b n Hn. split; [|now intros ->]. intros Heq. apply quote_injective.
    assert (Hrun : forall f,
      requests (snd (Branch.get_file_content b f st))
      = requests st ++ [Request GET ("/projects/" +:+ Branch.project b +:+ "/branches/"
                                     +:+ n +:+ "/files/" +:+ quote f ""
                                     +:+ "/content") []]).
    { intros f. unfold Branch.get_file_content, bind at 1, lift at 1. rewrite Hn.
      unfold bind, make_call, lift. now destruct (reply (requests st) _). }
    rewrite !Hrun in Heq. apply app_inv_head in Heq. injection Heq as Heq.
    do 5 apply append_inv_head in Heq. now apply append_inv_tail in Heq.
Qed.

Lemma file_requests_determine_the_file_witness :
  let G := server [] "" in
  let b := Branch.parse (branch_info "refs/heads/master" "abc123") "P" in
  requests (snd (@Branch.get_file_content G b "a/b" (snapshot "P" [])))
  = requests (snd (@Branch.get_file_content G b "a%2Fb" (snapshot "P" [])))
  <-> "a/b" = "a%2Fb".
Proof.
  intros G b.
  exact (proj2 (proj2 (@file_requests_determine_the_file G "a/b" "a%2Fb"
                         (snapshot "P" []))) b "master" eq_refl).
Defined.

(** X15: [quote(s, safe='')] returns [s] itself exactly when every byte of
    [s] is an ASCII letter, a digit or one of [_.-~]; in general the result
    has at least as many bytes as [s] and at most three times as many. *)
Theorem quote_is_identity_on_unreserved (s : string) :
  (quote s "" = s <-> forallb always_safe (list_ascii_of_string s) = true) /\
  String.length s <= String.length (quote s "") <= 3 * String.length s.
Proof.
  split; [|apply quote_length].
  induction s as [|c s IH]; [split; reflexivity|].
  cbn [quote list_ascii_of_string forallb]. unfold quote_byte.
  cbn [list_ascii_of_string existsb]. rewrite orb_false_r.
  destruct (always_safe c) eqn:Hc; cbn [andb].
  - change (String c "" +:+ ?t) with (String c t).
    rewrite <- IH. split; [now intros [= ->] | now intros ->].
  - split; [|discriminate]. intros Heq.
    apply (f_equal String.length) in Heq.
    rewrite length_append in Heq. pose proof (quote_length s).
    simpl in Heq. lia.
Qed.

(** ** The checked operations on a mapping *)

(** X16: a mapping passes the validation and is the payload, unchanged:
    [get_mergeable_information] on a branch that has a name sends one GET of
    [.../branches/<name>/mergeable] carrying it, [cherry_pick] one POST of
    [.../commits/<commit>/cherrypick] carrying it, and each returns what
    [decode_response] gives for the response. *)
Theorem mapping_is_sent_as_payload {G : Gerrit} (d : dict) (st : state) :
  (forall b n,
     Branch.name b = Ok n ->
     let rq := Request GET ("/projects/" +:+ Branch.project b +:+ "/branches/" +:+ n
                            +:+ "/mergeable") d in
     Branch.get_mergeable_information b (JObj d) st
     = (res_bind (reply (requests st) rq) decode_response,
        {| requests := requests st ++ [rq]; branches := branches st |})) /\
  (forall c,
     let rq := Request POST ("/projects/" +:+ Commit.project c +:+ "/commits/"
                             +:+ Commit.commit c +:+ "/cherrypick") d in
     Commit.cherry_pick c (JObj d) st
     = (res_bind (reply (requests st) rq) decode_response,
        {| requests := requests st ++ [rq]; branches := branches st |})).
Proof.
  split.
  - intros b n Hn rq. subst rq.
    unfold Branch.get_mergeable_information, check. cbn [is_mapping].
    unfold bind at 1, lift at 1. rewrite Hn.
    unfold bind, make_call, lift, kwargs.
    now destruct (reply (requests st) _).
  - intros c rq. subst rq.
    unfold Commit.cherry_pick, check. cbn [is_mapping].
    unfold bind, make_call, lift, kwargs.
    now destruct (reply (requests st) _).
Qed.

Lemma mapping_is_sent_as_payload_witness :
  let G := server [] "" in
  let b := Branch.parse (branch_info "refs/heads/master" "abc123") "P" in
  let d := [("source", JStr "refs/heads/dev")] in
  @Branch.get_mergeable_information G b (JObj d) (snapshot "P" [])
  = (Ok (JArr []),
     {| requests := [Request GET "/projects/P/branches/master/mergeable" d];
        branches := {| project := "P"; _data := [] |} |}).
Proof.
  intros G b d.
  exact (proj1 (@mapping_is_sent_as_payload G d (snapshot "P" [])) b "master" eq_refl).
Defined.

(** ** Writes followed by reads *)

(** X17: the collection does not see its own writes.  After [create] on a
    name whose ref is not cached, with a mapping, the ref is still not a
    member and its lookup still raises [UnknownBranch]; after
    [del branches[key]] the lookup of [key] gives what it gave before.  Both
    hold whatever the server answered. *)
Theorem writes_are_not_read_back {G : Gerrit} (st : state) :
  (forall name d,
     Forall (fun row => has_ref row = true) (_data (branches st)) ->
     fst (Branches.__contains__ (JStr (Branches.branch_prefix +:+ name)) st)
     = Ok false ->
     let st' := snd (Branches.create name (JObj d) st) in
     fst (Branches.__contains__ (JStr (Branches.branch_prefix +:+ name)) st')
     = Ok false /\
     fst (Branches.__getitem__ (Branches.branch_prefix +:+ name) st')
     = Raise (UnknownBranch (Branches.branch_prefix +:+ name))) /\
  (forall key,
     let st' := snd (Branches.__delitem__ key st) in
     fst (Branches.__getitem__ key st') = fst (Branches.__getitem__ key st) /\
     forall r, fst (Branches.__contains__ r st') = fst (Branches.__contains__ r st)).
Proof.
  split.
  - intros name d Hwf Hnot st'.
    assert (branches st' = branches st) as Hb by apply keeps_create.
    assert (Forall (fun row => has_ref row = true) (_data (branches st'))) as Hwf'
      by now rewrite Hb.
    rewrite (contains_wf _ st Hwf) in Hnot. simpl in Hnot. injection Hnot as Hnot.
    rewrite (contains_wf _ st' Hwf'). rewrite Hb. simpl. rewrite Hnot.
    split; [reflexivity|].
    rewrite getitem_missing; [reflexivity | apply prefix_append | exact Hwf' |].
    now rewrite Hb.
  - intros key st'.
    assert (branches st' = branches st) as Hb by apply keeps_delitem.
    split; [|intros r]; rewrite ?getitem_run, ?contains_run; simpl; now rewrite Hb.
Qed.

Lemma writes_are_not_read_back_witness :
  let G := server [] "refs/heads/b" in
  let st := snapshot "P" [branch_info "refs/heads/master" "abc123"] in
  let st' := snd (@Branches.create G "b" (JObj [("revision", JStr "master")]) st) in
  requests st' = [Request PUT "/projects/P/branches/b" [("revision", JStr "master")]] /\
  fst (Branches.__getitem__ "refs/heads/b" st') = Raise (UnknownBranch "refs/heads/b").
Proof.
  intros G st st'. split; [reflexivity|].
  refine (proj2 (proj1 (@writes_are_not_read_back G st) "b"
                   [("revision", JStr "master")] _ eq_refl)).
  repeat constructor.
Defined.

(** X18: item assignment checks the key before the value.  A key without
    the prefix raises the invalid-key error whatever the value is; a key with
    the prefix and a value that is not a mapping raises [InvalidArgument];
    neither sends a request. *)
Theorem setitem_checks_key_then_value {G : Gerrit} (key : string) (value : json)
        (st : state) :
  (startswith key Branches.branch_prefix = false ->
   Branches.__setitem__ key value st
   = (Raise (KeyError "branch ref should start with refs/heads/"), st)) /\
  (startswith key Branches.branch_prefix = true ->
   is_mapping value = false ->
   Branches.__setitem__ key value st = (Raise InvalidArgument, st)).
Proof.
  split.
  - apply setitem_without_prefix.
  - intros Hk Hv. rewrite (setitem_delegates key value st Hk).
    unfold Branches.create, check. rewrite Hv. reflexivity.
Qed.

Lemma setitem_checks_key_then_value_witness :
  let G := server [] "" in
  @Branches.__setitem__ G "master" (JStr "abc123") (snapshot "P" [])
  = (Raise (KeyError "branch ref should start with refs/heads/"), snapshot "P" []) /\
  @Branches.__setitem__ G "refs/heads/master" (JStr "abc123") (snapshot "P" [])
  = (Raise InvalidArgument, snapshot "P" []).
Proof.
  intros G. split.
  - exact (proj1 (@setitem_checks_key_then_value G "master" (JStr "abc123")
                    (snapshot "P" [])) eq_refl).
  - exact (proj2 (@setitem_checks_key_then_value G "refs/heads/master" (JStr "abc123")
                    (snapshot "P" [])) eq_refl eq_refl).
Defined.
